(** * lighthouse-jx-controller: the LighthouseJob reconciler

    A shallow embedding of [pkg/engines/jx/controller.go].  The API server,
    the process environment, the clock and the log are one explicit [World];
    [Reconcile] is a state transformer over it that ends by returning an
    error value or by panicking. *)

From Stdlib Require Import ZArith String Ascii List Bool Lia DecimalString DecimalPos DecimalZ.
From stdpp Require Import base option list strings gmap.

Local Open Scope string_scope.
Local Open Scope Z_scope.

(** ** Go strings *)

Module GoStrings.

(** [strings.HasPrefix]. *)
Definition HasPrefix (s p : string) : bool := String.prefix p s.

Definition inCutset (cutset : string) (c : ascii) : bool :=
  existsb (Ascii.eqb c) (list_ascii_of_string cutset).

(** [strings.TrimRight]: drops every trailing character that is in the cutset. *)
Fixpoint TrimRight (s cutset : string) : string :=
  match s with
  | EmptyString => EmptyString
  | String c rest =>
      match TrimRight rest cutset with
      | EmptyString => if inCutset cutset c then EmptyString else String c EmptyString
      | kept => String c kept
      end
  end.

(** [strconv.Itoa]. *)
Definition Itoa (n : Z) : string := NilZero.string_of_int (Z.to_int n).

(** [strings.Join]. *)
Definition Join (l : list string) (sep : string) : string := String.concat sep l.

(** [strings.Contains]. *)
Fixpoint Contains (s sub : string) : bool :=
  String.prefix sub s ||
  match s with
  | EmptyString => false
  | String _ rest => Contains rest sub
  end.

End GoStrings.
Import GoStrings.

(** ** Errors *)

(** Go [error] values: API-server status errors, plain messages, and
    [errors.Wrap] of a cause with a context message. *)
Inductive error : Type :=
  | ErrNotFound
  | ErrConflict
  | ErrMsg (msg : string)
  | ErrWrap (cause : error) (msg : string).

(** [client.IgnoreNotFound]. *)
Definition IgnoreNotFound (err : error) : option error :=
  match err with
  | ErrNotFound => None
  | e => Some e
  end.

(** ** Resource types *)

Inductive PipelineState : Type :=
  | TriggeredState
  | PendingState
  | RunningState
  | SuccessState
  | FailureState
  | AbortedState.

Definition PipelineState_eqb (a b : PipelineState) : bool :=
  match a, b with
  | TriggeredState, TriggeredState | PendingState, PendingState
  | RunningState, RunningState | SuccessState, SuccessState
  | FailureState, FailureState | AbortedState, AbortedState => true
  | _, _ => false
  end.

Record Pull : Type := { Number : Z; SHA : string }.

Record Refs : Type := {
  Org : string;
  Repo : string;
  CloneURI : string;
  BaseRef : string;
  BaseSHA : string;
  Pulls : list Pull
}.

Record LighthouseJobSpec : Type := {
  Agent : string;
  SpecRefs : Refs;
  SpecContext : string;
  SpecJob : string;
  EnvVars : list (string * string)
}.

(** The snapshot of an activity embedded in a job's status. *)
Record ActivityRecord : Type := {
  arOwner : string;
  arRepo : string;
  arBranch : string;
  arBuildIdentifier : string;
  arContext : string
}.

Record LighthouseJobStatus : Type := {
  State : PipelineState;
  ActivityName : string;
  StartTime : option Z;
  ReportURL : string;
  Activity : option ActivityRecord
}.

(** [Labels] is a Go map: [None] is the nil map of an object that was
    created without labels. *)
Record LighthouseJob : Type := {
  Name : string;
  Namespace : string;
  Labels : option (gmap string string);
  Spec : LighthouseJobSpec;
  Status : LighthouseJobStatus
}.

Record PipelineActivitySpec : Type := {
  Build : string;
  GitOwner : string;
  GitRepository : string;
  GitBranch : string;
  paContext : string
}.

Record PipelineActivity : Type := {
  paName : string;
  paNamespace : string;
  paSpec : PipelineActivitySpec
}.

Record NamespacedName : Type := { reqNamespace : string; reqName : string }.

Definition storeKey (n : NamespacedName) : string * string :=
  (reqNamespace n, reqName n).

(** ** The pipeline engine boundary (package [metapipeline]) *)

Inductive PipelineKind : Type :=
  | ReleasePipeline
  | PullRequestPipeline
  | FeaturePipeline.

Record PullRequestRef : Type := { ID : string; MergeSHA : string }.

Record PullRef : Type := {
  sourceURL : string;
  baseBranch : string;
  baseSHA : string;
  pullRequests : list PullRequestRef
}.

(** [metapipeline.NewPullRef]: a pull ref with no pull requests. *)
Definition NewPullRef (url branch sha : string) : PullRef :=
  {| sourceURL := url; baseBranch := branch; baseSHA := sha; pullRequests := [] |}.

(** [metapipeline.NewPullRefWithPullRequest]. *)
Definition NewPullRefWithPullRequest (url branch sha : string)
    (prs : list PullRequestRef) : PullRef :=
  {| sourceURL := url; baseBranch := branch; baseSHA := sha; pullRequests := prs |}.

Record PipelineCreateParam : Type := {
  pcPullRef : PullRef;
  pcPipelineKind : PipelineKind;
  pcContext : string;
  pcServiceAccount : string;
  pcDefaultImage : string;
  pcEnvVariables : gmap string string
}.

Record PromoteStepActivityKey : Type := { keyName : string }.

(** The run descriptor returned by [Create] is opaque to the controller. *)
Record CRDWrapper : Type := { crdResources : list string }.

(** [metapipeline.Client].  The engine owns the activity records: [Create]
    may read them, [Apply] may add to them. *)
Record Client : Type := {
  Create : PipelineCreateParam -> list PipelineActivity ->
           error + (PromoteStepActivityKey * CRDWrapper);
  Apply : PromoteStepActivityKey -> CRDWrapper -> list PipelineActivity ->
          option error * list PipelineActivity
}.

(** ** What the controller imports from the lighthouse and jx libraries,
    and from Go's [text/template]

    These functions and constants are not part of this repository; the
    development is parametric in them. *)
Class Externals : Type := {
  (** [util.ToValidName]: the normalisation of a resource name *)
  ToValidName : string -> string;
  (** [LighthouseJobSpec.GetBranch] *)
  GetBranch : LighthouseJobSpec -> string;
  (** [LighthouseJobSpec.GetEnvVars] *)
  GetEnvVars : LighthouseJobSpec -> gmap string string;
  (** [PullRef.String]: the rendering of a pull ref *)
  PullRefString : PullRef -> string;
  (** [configjob.JenkinsXAgent] and [configjob.LegacyDefaultAgent] *)
  JenkinsXAgent : string;
  LegacyDefaultAgent : string;
  (** [util.BuildNumLabel] *)
  BuildNumLabel : string;
  (** [text/template] on a text that uses syntax outside the fragment of
      {!Template}: the error of [Parse], if there is one, and the result of
      [Execute] with [missingkey=error] *)
  ParseOther : string -> option error;
  ExecuteOther : string -> gmap string string -> error + string
}.

(** Modelled from the spec: [PullRef.String] belongs to the jx library, which
    is not part of the sources.  With pull requests present the descriptor is
    the comma-joined list of [number:revision] pairs. *)
Definition specPullRefString (pr : PullRef) : string :=
  Join (map (fun p => ID p ++ ":" ++ MergeSHA p) (pullRequests pr)) ",".

(** Modelled from the spec: [ConvertPipelineActivity] is defined in a file of
    this package that is not part of the sources.  It translates an activity
    into the status snapshot: owner, repository, branch, build identifier and
    context are those of the activity. *)
Definition ConvertPipelineActivity (pa : PipelineActivity) : error + ActivityRecord :=
  inr {| arOwner := GitOwner (paSpec pa);
         arRepo := GitRepository (paSpec pa);
         arBranch := GitBranch (paSpec pa);
         arBuildIdentifier := Build (paSpec pa);
         arContext := paContext (paSpec pa) |}.

(** ** Report URL templates *)

Definition defaultTargetURLTemplate : string :=
  "{{ .BaseURL }}/teams/{{ .Team }}/projects/{{ .Owner }}/{{ .Repository }}/{{ .Branch }}/{{ .Build }}".
Definition baseTargetURLEnvVar : string := "LIGHTHOUSE_REPORT_URL_BASE".
Definition targetURLTeamEnvVar : string := "LIGHTHOUSE_REPORT_URL_TEAM".

Record ReportParams : Type := {
  rpBaseURL : string;
  rpOwner : string;
  rpRepository : string;
  rpBranch : string;
  rpBuild : string;
  rpContext : string;
  rpTeam : string
}.

(** [toObjectMap] applied to a [ReportParams]: the YAML round trip of a flat
    struct of strings is the map from its field names to its values. *)
Definition toObjectMap (p : ReportParams) : error + gmap string string :=
  inr (<["BaseURL" := rpBaseURL p]>
      (<["Owner" := rpOwner p]>
      (<["Repository" := rpRepository p]>
      (<["Branch" := rpBranch p]>
      (<["Build" := rpBuild p]>
      (<["Context" := rpContext p]>
      (<["Team" := rpTeam p]> ∅))))))).

(** The fragment of [text/template] that report URL templates are written
    in: literal text, field actions [{{ .Name }}] and conditionals on a
    boolean constant, [{{if true}} ... {{end}}].  A text that uses any other
    syntax (trim markers, pipelines, comments, [{{.}}], numbers, ...) is
    handed to the library as a whole, see {!Externals}. *)
Module Template.

#[warnings="-register-all"] Inductive node : Type :=
  | TextNode (text : string)
  | FieldNode (name : string)
  | IfNode (condition : bool) (body : list node).

(** A parsed template: a tree of the fragment, or a text left to the
    library. *)
Inductive t : Type :=
  | Tree (nodes : list node)
  | Other (text : string).

(** *** The lexer *)

Inductive token : Type :=
  | TText (text : string)
  | TField (name : string)
  | TIf (condition : bool)
  | TEnd.

Inductive scanned : Type :=
  | Tokens (toks : list token)
  | Unclosed
  | Unsupported.

Inductive lexMode : Type := InText | InAction.

Definition snoc (buf : string) (c : ascii) : string := buf ++ String c EmptyString.

Definition flushText (buf : string) (rest : list token) : list token :=
  match buf with
  | EmptyString => rest
  | _ => TText buf :: rest
  end.

(** Space and tab; a line break inside an action is accepted only by later
    versions of the library and is left to it. *)
Definition isSpace (c : ascii) : bool :=
  Ascii.eqb c " " || Ascii.eqb c "009".

Definition isDigit (c : ascii) : bool :=
  let n := nat_of_ascii c in ((48 <=? n) && (n <=? 57))%nat.

Definition isAlphaNumeric (c : ascii) : bool :=
  let n := nat_of_ascii c in
  (Ascii.eqb c "_" || isDigit c ||
   ((65 <=? n) && (n <=? 90)) || ((97 <=? n) && (n <=? 122)))%nat.

Fixpoint trimLeft (s : string) : string :=
  match s with
  | String c rest => if isSpace c then trimLeft rest else s
  | EmptyString => EmptyString
  end.

Fixpoint trimRight (s : string) : string :=
  match s with
  | EmptyString => EmptyString
  | String c rest =>
      match trimRight rest with
      | EmptyString => if isSpace c then EmptyString else String c EmptyString
      | kept => String c kept
      end
  end.

(** A field reference: a dot, then a name of letters, digits and
    underscores.  A dot followed by a digit starts a number, not a field. *)
Definition fieldOf (body : string) : option string :=
  match body with
  | String "." (String c rest as name) =>
      if negb (isDigit c) && forallb isAlphaNumeric (list_ascii_of_string name)
      then Some name else None
  | _ => None
  end.

(** The keyword [if], at least one space, and a boolean constant. *)
Definition ifOf (body : string) : option bool :=
  match body with
  | String "i" (String "f" (String c rest)) =>
      if isSpace c then
        let condition := trimLeft rest in
        if String.eqb condition "true" then Some true
        else if String.eqb condition "false" then Some false
        else None
      else None
  | _ => None
  end.

(** The token of an action, when the action belongs to the fragment. *)
Definition actionOf (body : string) : option token :=
  let inner := trimRight (trimLeft body) in
  if String.eqb inner "end" then Some TEnd
  else match ifOf inner with
       | Some condition => Some (TIf condition)
       | None =>
           match fieldOf inner with
           | Some name => Some (TField name)
           | None => None
           end
       end.

(** Text up to the next left delimiter, then an action up to the next right
    delimiter.  The first action outside the fragment ends the scan. *)
Fixpoint scan (mode : lexMode) (buf : string) (s : string) : scanned :=
  match mode, s with
  | InText, EmptyString => Tokens (flushText buf [])
  | InText, String "{" (String "{" rest) =>
      match scan InAction EmptyString rest with
      | Tokens toks => Tokens (flushText buf toks)
      | stopped => stopped
      end
  | InText, String c rest => scan InText (snoc buf c) rest
  | InAction, EmptyString => Unclosed
  | InAction, String "}" (String "}" rest) =>
      match actionOf buf with
      | None => Unsupported
      | Some tok =>
          match scan InText EmptyString rest with
          | Tokens toks => Tokens (tok :: toks)
          | stopped => stopped
          end
      end
  | InAction, String c rest => scan InAction (snoc buf c) rest
  end.

(** *** The parser *)

(** [pending] holds the nodes of the list being read, last first; [open]
    holds, for every conditional not yet closed, its condition and the nodes
    read before it. *)
Fixpoint build (toks : list token) (pending : list node)
    (open : list (bool * list node)) : error + list node :=
  match toks with
  | [] =>
      match open with
      | [] => inr (rev pending)
      | _ :: _ => inl (ErrMsg "unexpected EOF")
      end
  | TText text :: rest => build rest (TextNode text :: pending) open
  | TField name :: rest => build rest (FieldNode name :: pending) open
  | TIf condition :: rest => build rest [] ((condition, pending) :: open)
  | TEnd :: rest =>
      match open with
      | [] => inl (ErrMsg "unexpected {{end}}")
      | (condition, outer) :: open' =>
          build rest (IfNode condition (rev pending) :: outer) open'
      end
  end.

(** *** Execution *)

(** What an execution does, in order: write a text, or evaluate a field. *)
Inductive step : Type :=
  | Write (text : string)
  | Eval (name : string).

(** The walk over the tree: a conditional stands for its body when its
    condition is true and for nothing otherwise. *)
Fixpoint walkNode (n : node) : list step :=
  match n with
  | TextNode text => [Write text]
  | FieldNode name => [Eval name]
  | IfNode condition body =>
      if condition then flat_map walkNode body else []
  end.

Definition walk (nodes : list node) : list step := flat_map walkNode nodes.

(** [missingkey=error] over a map: a field that the map does not have aborts
    the execution. *)
Fixpoint run (steps : list step) (data : gmap string string) : error + string :=
  match steps with
  | [] => inr EmptyString
  | Write text :: rest =>
      match run rest data with
      | inl e => inl e
      | inr out => inr (text ++ out)
      end
  | Eval name :: rest =>
      match data !! name with
      | None => inl (ErrMsg ("map has no entry for key " ++ name))
      | Some v =>
          match run rest data with
          | inl e => inl e
          | inr out => inr (v ++ out)
          end
      end
  end.

Section Library.
Context `{X : Externals}.

(** [Parse] *)
Definition Parse (text : string) : error + t :=
  match scan InText EmptyString text with
  | Unclosed => inl (ErrMsg "unclosed action")
  | Unsupported =>
      match ParseOther text with
      | Some e => inl e
      | None => inr (Other text)
      end
  | Tokens toks =>
      match build toks [] [] with
      | inl e => inl e
      | inr nodes => inr (Tree nodes)
      end
  end.

(** [Execute] with the option [missingkey=error] *)
Definition Execute (tmpl : t) (data : gmap string string) : error + string :=
  match tmpl with
  | Tree nodes => run (walk nodes) data
  | Other text => ExecuteOther text data
  end.

End Library.

End Template.

(** ** The world the reconciler runs in *)

Inductive Level : Type := InfoLevel | WarningLevel | ErrorLevel.

(** What a reconciliation does to its collaborators, newest first in the
    trace.  Log entries keep the format string and the structured fields. *)
Inductive Event : Type :=
  | Logged (level : Level) (msg : string) (fields : list (string * string))
  | CreateCalled (param : PipelineCreateParam)
  | ApplyCalled (key : PromoteStepActivityKey) (crds : CRDWrapper)
  | UpdateCalled (job : LighthouseJob)
  | StatusUpdateCalled (job : LighthouseJob).

(** The requests of the API client that the server refuses. *)
Record Faults : Type := {
  getErr : option error;
  listErr : option error;
  updateErr : option error;
  statusUpdateErr : option error
}.

Record World : Type := {
  jobs : gmap (string * string) LighthouseJob;
  activities : list PipelineActivity;
  environ : gmap string string;
  clock : Z;
  faults : Faults;
  trace : list Event
}.

Definition withJobs (w : World) (js : gmap (string * string) LighthouseJob) : World :=
  {| jobs := js; activities := activities w; environ := environ w;
     clock := clock w; faults := faults w; trace := trace w |}.

Definition withActivities (w : World) (acts : list PipelineActivity) : World :=
  {| jobs := jobs w; activities := acts; environ := environ w;
     clock := clock w; faults := faults w; trace := trace w |}.

Definition withTrace (w : World) (tr : list Event) : World :=
  {| jobs := jobs w; activities := activities w; environ := environ w;
     clock := clock w; faults := faults w; trace := tr |}.

(** How a call of [Reconcile] ends: it returns its error value ([None] is
    the nil error), or the goroutine panics. *)
Inductive exit : Type :=
  | Returned (err : option error)
  | Panicked (msg : string).

Inductive outcome (A : Type) : Type :=
  | Val (a : A)
  | Exit (x : exit).
Arguments Val {A} a.
Arguments Exit {A} x.

Definition M (A : Type) : Type := World -> outcome A * World.

Definition pure {A} (a : A) : M A := fun w => (Val a, w).

Definition bind {A B} (m : M A) (k : A -> M B) : M B :=
  fun w =>
    match m w with
    | (Val a, w') => k a w'
    | (Exit x, w') => (Exit x, w')
    end.

Declare Scope go_scope.
Delimit Scope go_scope with go.
Notation "x <- m ;; k" := (bind m (fun x => k))
  (at level 100, m at next level, right associativity) : go_scope.
Notation "m ;;; k" := (bind m (fun _ => k))
  (at level 100, right associativity) : go_scope.

(** [return ctrl.Result{}, err] *)
Definition returnErr {A} (err : option error) : M A :=
  fun w => (Exit (Returned err), w).

Definition panic {A} (msg : string) : M A :=
  fun w => (Exit (Panicked msg), w).

Definition emit (ev : Event) : M unit :=
  fun w => (Val tt, withTrace w (ev :: trace w)).

Definition logf (level : Level) (msg : string) : M unit := emit (Logged level msg []).

(** [os.Getenv]: an unset variable reads as the empty string. *)
Definition Getenv (key : string) : M string :=
  fun w => (Val (default "" (environ w !! key)), w).

(** [metav1.Now] *)
Definition Now : M Z := fun w => (Val (clock w), w).

(** *** The API client *)

(** [client.Get] of a LighthouseJob. *)
Definition clientGet (key : NamespacedName) : M (error + LighthouseJob) :=
  fun w =>
    match getErr (faults w) with
    | Some e => (Val (inl e), w)
    | None =>
        match jobs w !! storeKey key with
        | None => (Val (inl ErrNotFound), w)
        | Some job => (Val (inr job), w)
        end
    end.

Section WithExternals.
Context `{X : Externals}.

(** The field index on activities that [SetupWithManager] registers under
    [pipelineActivityKey]. *)
Definition pipelineActivityIndex (obj : PipelineActivity) : list string :=
  [ToValidName (paName obj)].

(** The field index on jobs registered under the same key. *)
Definition lighthouseJobIndex (obj : LighthouseJob) : list string :=
  if String.eqb (ActivityName (Status obj)) "" then []
  else [ActivityName (Status obj)].

(** The activities of a namespace that the index files under a value. *)
Definition matchingFields (namespace value : string)
    (acts : list PipelineActivity) : list PipelineActivity :=
  List.filter
    (fun pa => String.eqb (paNamespace pa) namespace &&
               existsb (String.eqb value) (pipelineActivityIndex pa))
    acts.

(** [client.List] with [InNamespace] and [MatchingFields]. *)
Definition clientList (namespace value : string) : M (error + list PipelineActivity) :=
  fun w =>
    match listErr (faults w) with
    | Some e => (Val (inl e), w)
    | None => (Val (inr (matchingFields namespace value (activities w))), w)
    end.

End WithExternals.

Definition jobKey (job : LighthouseJob) : string * string := (Namespace job, Name job).

(** [client.Update]: replaces the stored object. *)
Definition clientUpdate (job : LighthouseJob) : M (option error) :=
  fun w =>
    let w1 := withTrace w (UpdateCalled job :: trace w) in
    match updateErr (faults w) with
    | Some e => (Val (Some e), w1)
    | None =>
        match jobs w !! jobKey job with
        | None => (Val (Some ErrNotFound), w1)
        | Some _ => (Val None, withJobs w1 (<[jobKey job := job]> (jobs w)))
        end
    end.

Definition setStatus (job : LighthouseJob) (st : LighthouseJobStatus) : LighthouseJob :=
  {| Name := Name job; Namespace := Namespace job; Labels := Labels job;
     Spec := Spec job; Status := st |}.

Definition setLabels (job : LighthouseJob) (ls : option (gmap string string)) : LighthouseJob :=
  {| Name := Name job; Namespace := Namespace job; Labels := ls;
     Spec := Spec job; Status := Status job |}.

(** [client.Status().Update]: replaces the status of the stored object. *)
Definition clientStatusUpdate (job : LighthouseJob) : M (option error) :=
  fun w =>
    let w1 := withTrace w (StatusUpdateCalled job :: trace w) in
    match statusUpdateErr (faults w) with
    | Some e => (Val (Some e), w1)
    | None =>
        match jobs w !! jobKey job with
        | None => (Val (Some ErrNotFound), w1)
        | Some stored =>
            (Val None, withJobs w1 (<[jobKey job := setStatus stored (Status job)]> (jobs w)))
        end
    end.

(** *** The engine *)

Definition mpCreate (mp : Client) (param : PipelineCreateParam)
    : M (error + (PromoteStepActivityKey * CRDWrapper)) :=
  fun w => (Val (Create mp param (activities w)),
            withTrace w (CreateCalled param :: trace w)).

Definition mpApply (mp : Client) (key : PromoteStepActivityKey) (crds : CRDWrapper)
    : M (option error) :=
  fun w =>
    let '(err, acts) := Apply mp key crds (activities w) in
    (Val err, withActivities (withTrace w (ApplyCalled key crds :: trace w)) acts).

(** ** The reconciler *)

(** [LighthouseJobReconciler]: the API client and the logger are the
    [World]; what remains is the namespace and the engine client. *)
Record LighthouseJobReconciler : Type := {
  namespace : string;
  mpClient : Client
}.

Definition getPullRefs (sourceURL : string) (spec : LighthouseJobSpec) : PullRef :=
  if (0 <? length (Pulls (SpecRefs spec)))%nat then
    let prs := map (fun pull => {| ID := Itoa (Number pull); MergeSHA := SHA pull |})
                   (Pulls (SpecRefs spec)) in
    NewPullRefWithPullRequest sourceURL (BaseRef (SpecRefs spec)) (BaseSHA (SpecRefs spec)) prs
  else
    NewPullRef sourceURL (BaseRef (SpecRefs spec)) (BaseSHA (SpecRefs spec)).

(** [getReportURLBase] and [getReportURLTeam] *)
Definition getReportURLBase : M string := Getenv baseTargetURLEnvVar.
Definition getReportURLTeam : M string := Getenv targetURLTeamEnvVar.

Definition hasHTTPScheme (url : string) : bool :=
  HasPrefix url "http://" || HasPrefix url "https://".

Section Reconciler.
Context `{X : Externals}.
Local Open Scope go_scope.

(** [createReportTargetURL]: every failure is logged as a warning and
    yields the empty string. *)
Definition createReportTargetURL (templateText : string) (params : ReportParams) : M string :=
  match toObjectMap params with
  | inl err =>
      logf WarningLevel "failed to convert git ReportParams to a map for %#v" ;;;
      pure ""
  | inr templateData =>
      match Template.Parse templateText with
      | inl err =>
          logf WarningLevel "failed to parse git ReportsParam template: %s" ;;;
          pure ""
      | inr tmpl =>
          match Template.Execute tmpl templateData with
          | inl err =>
              logf WarningLevel
                "failed to evaluate git ReportsParam template: %s due to: %s" ;;;
              pure ""
          | inr buf => pure buf
          end
      end
  end.

(** The locals of the trigger branch (lines 152-175 of controller.go). *)
Definition triggerBranch (spec : LighthouseJobSpec) : string :=
  let branch := GetBranch spec in
  if String.eqb branch "" then "master" else branch.

Definition triggerPullRefs (spec : LighthouseJobSpec) : string :=
  let pullRefData := getPullRefs (CloneURI (SpecRefs spec)) spec in
  let branch := triggerBranch spec in
  let pullRefs := "" in
  let pullRefs :=
    if (0 <? length (Pulls (SpecRefs spec)))%nat then PullRefString pullRefData
    else pullRefs in
  if String.eqb pullRefs "" then branch ++ ":" else pullRefs.

Definition triggerKind (spec : LighthouseJobSpec) : PipelineKind :=
  let kind := ReleasePipeline in
  if (0 <? length (Pulls (SpecRefs spec)))%nat then PullRequestPipeline else kind.

Definition triggerServiceAccount : M string :=
  sa <- Getenv "JX_SERVICE_ACCOUNT" ;;
  pure (if String.eqb sa "" then "tekton-bot" else sa).

(** The zero-activity branch for a job in [TriggeredState]
    (lines 151-218). *)
Definition triggerPipeline (r : LighthouseJobReconciler) (job : LighthouseJob) : M unit :=
  let spec := Spec job in
  let jobName := Repo (SpecRefs spec) in
  let owner := Org (SpecRefs spec) in
  let sourceURL := CloneURI (SpecRefs spec) in
  let pullRefData := getPullRefs sourceURL spec in
  let branch := triggerBranch spec in
  let pullRefs := triggerPullRefs spec in
  sa <- triggerServiceAccount ;;
  let kind := triggerKind spec in
  emit (Logged InfoLevel "about to start Jenkinx X meta pipeline"
          [("Owner", owner); ("Name", jobName); ("SourceURL", sourceURL);
           ("Branch", branch); ("PullRefs", pullRefs); ("Job", SpecJob spec)]) ;;;
  defaultImage <- Getenv "JX_DEFAULT_IMAGE" ;;
  let pipelineCreateParam :=
    {| pcPullRef := pullRefData;
       pcPipelineKind := kind;
       pcContext := SpecContext spec;
       pcServiceAccount := sa;
       pcDefaultImage := defaultImage;
       pcEnvVariables := GetEnvVars spec |} in
  activityKey_tektonCRDs <- mpCreate (mpClient r) pipelineCreateParam ;;
  match activityKey_tektonCRDs with
  | inl err => returnErr (Some (ErrWrap err "unable to create Tekton CRDs"))
  | inr (activityKey, tektonCRDs) =>
      now <- Now ;;
      let job := setStatus job {| State := PendingState;
                                  ActivityName := ToValidName (keyName activityKey);
                                  StartTime := Some now;
                                  ReportURL := "";
                                  Activity := None |} in
      updated <- clientStatusUpdate job ;;
      match updated with
      | Some err =>
          logf ErrorLevel "Failed to update LighthouseJob status: %s" ;;;
          returnErr (Some err)
      | None =>
          applied <- mpApply (mpClient r) activityKey tektonCRDs ;;
          match applied with
          | Some err => returnErr (Some (ErrWrap err "unable to apply Tekton CRDs"))
          | None => pure tt
          end
      end
  end.

(** [job.Labels[key] = value]: an assignment to an entry of a nil map panics. *)
Definition assignLabel (job : LighthouseJob) (key value : string) : M LighthouseJob :=
  match Labels job with
  | None => panic "assignment to entry in nil map"
  | Some labels => pure (setLabels job (Some (<[key := value]> labels)))
  end.

Definition setReportURL (job : LighthouseJob) (url : string) : LighthouseJob :=
  setStatus job {| State := State (Status job);
                   ActivityName := ActivityName (Status job);
                   StartTime := StartTime (Status job);
                   ReportURL := url;
                   Activity := Activity (Status job) |}.

Definition setActivity (job : LighthouseJob) (record : ActivityRecord) : LighthouseJob :=
  setStatus job {| State := State (Status job);
                   ActivityName := ActivityName (Status job);
                   StartTime := StartTime (Status job);
                   ReportURL := ReportURL (Status job);
                   Activity := Some record |}.

(** The parameters of the report URL (lines 234-255). *)
Definition reportParams (r : LighthouseJobReconciler) (urlBase urlTeam : string)
    (activityRecord : ActivityRecord) : ReportParams :=
  let team := namespace r in
  let team := if String.eqb urlTeam "" then team else urlTeam in
  let pipelineContext := arContext activityRecord in
  let pipelineContext :=
    if String.eqb pipelineContext "" then "jenkins-x" else pipelineContext in
  {| rpOwner := arOwner activityRecord;
     rpRepository := arRepo activityRecord;
     rpBranch := arBranch activityRecord;
     rpBuild := arBuildIdentifier activityRecord;
     rpContext := pipelineContext;
     rpBaseURL := TrimRight urlBase "/";
     rpTeam := team |}.

(** The one-activity branch (lines 219-265); [Reconcile] runs it with
    [defaultTargetURLTemplate]. *)
Definition mirrorActivity (r : LighthouseJobReconciler) (templateText : string)
    (job : LighthouseJob) (pipelineActivity : PipelineActivity) : M unit :=
  job <- assignLabel job BuildNumLabel (Build (paSpec pipelineActivity)) ;;
  updated <- clientUpdate job ;;
  match updated with
  | Some err =>
      logf ErrorLevel "failed to update Project status: %s" ;;;
      returnErr (Some err)
  | None =>
      match ConvertPipelineActivity pipelineActivity with
      | inl err => returnErr (Some err)
      | inr activityRecord =>
          urlBase <- getReportURLBase ;;
          job <- (if negb (String.eqb urlBase "") then
                    urlTeam <- getReportURLTeam ;;
                    targetURL <- createReportTargetURL templateText
                                   (reportParams r urlBase urlTeam activityRecord) ;;
                    pure (if hasHTTPScheme targetURL then setReportURL job targetURL
                          else job)
                  else pure job) ;;
          let job := setActivity job activityRecord in
          updated <- clientStatusUpdate job ;;
          match updated with
          | Some err =>
              logf ErrorLevel "Failed to update LighthouseJob status: %s" ;;;
              returnErr (Some err)
          | None => pure tt
          end
      end
  end.

(** [job.Spec.Agent != JenkinsXAgent && job.Spec.Agent != LegacyDefaultAgent] *)
Definition otherAgent (job : LighthouseJob) : bool :=
  negb (String.eqb (Agent (Spec job)) JenkinsXAgent) &&
  negb (String.eqb (Agent (Spec job)) LegacyDefaultAgent).

(** The switch on the number of activities found (lines 150-268). *)
Definition onActivities (r : LighthouseJobReconciler) (job : LighthouseJob)
    (items : list PipelineActivity) : M unit :=
  match items with
  | [] =>
      if PipelineState_eqb (State (Status job)) TriggeredState
      then triggerPipeline r job
      else pure tt
  | [pipelineActivity] => mirrorActivity r defaultTargetURLTemplate job pipelineActivity
  | _ =>
      logf ErrorLevel "A lighthouse job should never have more than 1 pipeline activity"
  end.

Definition reconcile (r : LighthouseJobReconciler) (req : NamespacedName) : M unit :=
  logf InfoLevel "Reconcile LighthouseJob %+v" ;;;
  got <- clientGet req ;;
  match got with
  | inl err =>
      logf WarningLevel "Unable to get LighthouseJob: %s" ;;;
      returnErr (IgnoreNotFound err)
  | inr job =>
      if otherAgent job then returnErr None
      else
        listed <- clientList (reqNamespace req) (ActivityName (Status job)) ;;
        match listed with
        | inl err =>
            logf ErrorLevel "Failed list pipeline runs: %s" ;;;
            returnErr (Some err)
        | inr items =>
            onActivities r job items ;;;
            returnErr None
        end
  end.

(** Falling off the end of the body is the final [return ctrl.Result{}, nil]. *)
Definition finish (out : outcome unit * World) : exit * World :=
  match out with
  | (Val _, w') => (Returned None, w')
  | (Exit x, w') => (x, w')
  end.

(** [Reconcile]: one iteration of the reconciliation loop. *)
Definition Reconcile (r : LighthouseJobReconciler) (req : NamespacedName)
    (w : World) : exit * World :=
  finish (reconcile r req w).

End Reconciler.

(** ** Vocabulary of the properties *)

(** The request that the work queue delivers for a job. *)
Definition requestFor (job : LighthouseJob) : NamespacedName :=
  {| reqNamespace := Namespace job; reqName := Name job |}.

(** The engine calls recorded in a trace, newest first. *)
Fixpoint createCalls (tr : list Event) : list PipelineCreateParam :=
  match tr with
  | [] => []
  | CreateCalled param :: rest => param :: createCalls rest
  | _ :: rest => createCalls rest
  end.

Fixpoint applyCalls (tr : list Event) : list (PromoteStepActivityKey * CRDWrapper) :=
  match tr with
  | [] => []
  | ApplyCalled key crds :: rest => (key, crds) :: applyCalls rest
  | _ :: rest => applyCalls rest
  end.

(** The writes to the API server recorded in a trace. *)
Fixpoint writeCalls (tr : list Event) : list Event :=
  match tr with
  | [] => []
  | UpdateCalled job :: rest => UpdateCalled job :: writeCalls rest
  | StatusUpdateCalled job :: rest => StatusUpdateCalled job :: writeCalls rest
  | _ :: rest => writeCalls rest
  end.

(** The lines that a reconciliation logs before it looks at the activities. *)
Definition entryLog : Event := Logged InfoLevel "Reconcile LighthouseJob %+v" [].

Definition anomalyLog : Event :=
  Logged ErrorLevel "A lighthouse job should never have more than 1 pipeline activity" [].

Section Vocabulary.
Context `{X : Externals}.

(** A reconciliation of [job] gets as far as the switch on its correlated
    activities and finds [items]: the job is stored under its name, is
    served by this controller, and both reads succeed. *)
Definition reaches (w : World) (job : LighthouseJob) (items : list PipelineActivity) : Prop :=
  getErr (faults w) = None /\
  jobs w !! jobKey job = Some job /\
  otherAgent job = false /\
  listErr (faults w) = None /\
  matchingFields (Namespace job) (ActivityName (Status job)) (activities w) = items.

(** The parameter that the trigger branch passes to [Create]. *)
Definition createParam (w : World) (spec : LighthouseJobSpec) : PipelineCreateParam :=
  let sa := default "" (environ w !! "JX_SERVICE_ACCOUNT") in
  {| pcPullRef := getPullRefs (CloneURI (SpecRefs spec)) spec;
     pcPipelineKind := triggerKind spec;
     pcContext := SpecContext spec;
     pcServiceAccount := if String.eqb sa "" then "tekton-bot" else sa;
     pcDefaultImage := default "" (environ w !! "JX_DEFAULT_IMAGE");
     pcEnvVariables := GetEnvVars spec |}.

Definition triggerLog (spec : LighthouseJobSpec) : Event :=
  Logged InfoLevel "about to start Jenkinx X meta pipeline"
    [("Owner", Org (SpecRefs spec)); ("Name", Repo (SpecRefs spec));
     ("SourceURL", CloneURI (SpecRefs spec)); ("Branch", triggerBranch spec);
     ("PullRefs", triggerPullRefs spec); ("Job", SpecJob spec)].

(** What the engine answers to the [Create] of the trigger branch. *)
Definition createResult (r : LighthouseJobReconciler) (w : World) (job : LighthouseJob)
    : error + (PromoteStepActivityKey * CRDWrapper) :=
  Create (mpClient r) (createParam w (Spec job)) (activities w).

(** The status that the trigger branch assigns after a successful [Create]. *)
Definition pendingStatus (key : PromoteStepActivityKey) (now : Z) : LighthouseJobStatus :=
  {| State := PendingState;
     ActivityName := ToValidName (keyName key);
     StartTime := Some now;
     ReportURL := "";
     Activity := None |}.

(** The job as the API server stores it after a run. *)
Definition stored (w : World) (job : LighthouseJob) : option LighthouseJob :=
  jobs w !! jobKey job.

(** The three stages of [createReportTargetURL], with the failure kept. *)
Definition renderTargetURL (templateText : string) (params : ReportParams) : error + string :=
  match toObjectMap params with
  | inl e => inl e
  | inr templateData =>
      match Template.Parse templateText with
      | inl e => inl e
      | inr tmpl => Template.Execute tmpl templateData
      end
  end.

(** The string that [createReportTargetURL] returns. *)
Definition renderedURL (templateText : string) (params : ReportParams) : string :=
  match renderTargetURL templateText params with
  | inl _ => ""
  | inr url => url
  end.

(** The warning that [createReportTargetURL] logs, if any. *)
Definition renderWarning (templateText : string) (params : ReportParams) : list Event :=
  match toObjectMap params with
  | inl _ => [Logged WarningLevel "failed to convert git ReportParams to a map for %#v" []]
  | inr templateData =>
      match Template.Parse templateText with
      | inl _ => [Logged WarningLevel "failed to parse git ReportsParam template: %s" []]
      | inr tmpl =>
          match Template.Execute tmpl templateData with
          | inl _ =>
              [Logged WarningLevel
                 "failed to evaluate git ReportsParam template: %s due to: %s" []]
          | inr _ => []
          end
      end
  end.

(** The report URL parameters of a run in world [w]. *)
Definition reportParamsIn (r : LighthouseJobReconciler) (w : World)
    (activityRecord : ActivityRecord) : ReportParams :=
  reportParams r (default "" (environ w !! baseTargetURLEnvVar))
    (default "" (environ w !! targetURLTeamEnvVar)) activityRecord.

(** The snapshot that mirrors an activity. *)
Definition snapshotOf (pa : PipelineActivity) : ActivityRecord :=
  {| arOwner := GitOwner (paSpec pa);
     arRepo := GitRepository (paSpec pa);
     arBranch := GitBranch (paSpec pa);
     arBuildIdentifier := Build (paSpec pa);
     arContext := paContext (paSpec pa) |}.

(** What happens between two observations of a job: the controller
    reconciles it again, or its surroundings change (activities appear, the
    environment, the clock and the server's faults vary) while the stored
    jobs and the trace stay as they are. *)
Inductive later (r : LighthouseJobReconciler) (req : NamespacedName) : World -> World -> Prop :=
  | later_now w : later r req w w
  | later_reconcile w w1 :
      later r req w w1 -> later r req w (snd (Reconcile r req w1))
  | later_surroundings w w1 w2 :
      later r req w w1 -> jobs w2 = jobs w1 -> trace w2 = trace w1 ->
      later r req w w2.

(** The world once a reconciliation has logged its request. *)
Definition entered (w : World) : World := withTrace w (entryLog :: trace w).

(** A template variable resolves when the template data has its key. *)
Definition resolves (params : ReportParams) (name : string) : bool :=
  match toObjectMap params with
  | inl _ => false
  | inr templateData =>
      match templateData !! name with
      | Some _ => true
      | None => false
      end
  end.

(** The job stored under a key, if any, is past the trigger point. *)
Definition pastTrigger (key : string * string) (w : World) : Prop :=
  forall job, jobs w !! key = Some job -> State (Status job) <> TriggeredState.

End Vocabulary.

(** ** The two branches, described directly *)

Section Outcomes.
Context `{X : Externals}.

Definition statusFailedLog : Event :=
  Logged ErrorLevel "Failed to update LighthouseJob status: %s" [].

Definition updateFailedLog : Event :=
  Logged ErrorLevel "failed to update Project status: %s" [].

(** The job as the trigger branch writes it. *)
Definition pendingJob (job : LighthouseJob) (key : PromoteStepActivityKey) (now : Z)
    : LighthouseJob :=
  setStatus job (pendingStatus key now).

(** What the trigger branch does. *)
Definition triggerOutcome (r : LighthouseJobReconciler) (w : World) (job : LighthouseJob)
    : exit * World :=
  let w1 := withTrace w (CreateCalled (createParam w (Spec job)) ::
                         triggerLog (Spec job) :: trace w) in
  match createResult r w job with
  | inl err => (Returned (Some (ErrWrap err "unable to create Tekton CRDs")), w1)
  | inr (key, crds) =>
      let w2 := withTrace w1 (StatusUpdateCalled (pendingJob job key (clock w)) :: trace w1) in
      match statusUpdateErr (faults w) with
      | Some err => (Returned (Some err), withTrace w2 (statusFailedLog :: trace w2))
      | None =>
          let w3 := withJobs w2 (<[jobKey job := pendingJob job key (clock w)]> (jobs w)) in
          let applied := Apply (mpClient r) key crds (activities w) in
          let w4 := withActivities (withTrace w3 (ApplyCalled key crds :: trace w3))
                                   (snd applied) in
          match fst applied with
          | Some err => (Returned (Some (ErrWrap err "unable to apply Tekton CRDs")), w4)
          | None => (Returned None, w4)
          end
      end
  end.

(** The trigger branch commits: create succeeds and the server accepts the
    status write. *)
Definition committed (r : LighthouseJobReconciler) (w : World) (job : LighthouseJob) : Prop :=
  (exists key crds, createResult r w job = inr (key, crds)) /\
  statusUpdateErr (faults w) = None.

(** The stored job is in [PendingState]. *)
Definition storedPending (w : World) (job : LighthouseJob) : Prop :=
  exists j, stored w job = Some j /\ State (Status j) = PendingState.

(** The job after the label of the one-activity branch is assigned. *)
Definition labelledJob (job : LighthouseJob) (labels : gmap string string)
    (pa : PipelineActivity) : LighthouseJob :=
  setLabels job (Some (<[BuildNumLabel := Build (paSpec pa)]> labels)).

(** The report URL that the one-activity branch accepts, if any. *)
Definition acceptedURL (r : LighthouseJobReconciler) (templateText : string) (w : World)
    (pa : PipelineActivity) : option string :=
  let url := renderedURL templateText (reportParamsIn r w (snapshotOf pa)) in
  if negb (String.eqb (default "" (environ w !! baseTargetURLEnvVar)) "") &&
     hasHTTPScheme url
  then Some url else None.

(** The warnings of the render, which runs only with a configured base. *)
Definition renderLog (r : LighthouseJobReconciler) (templateText : string) (w : World)
    (pa : PipelineActivity) : list Event :=
  if negb (String.eqb (default "" (environ w !! baseTargetURLEnvVar)) "")
  then renderWarning templateText (reportParamsIn r w (snapshotOf pa))
  else [].

(** The job as the one-activity branch writes its status. *)
Definition mirroredJob (r : LighthouseJobReconciler) (templateText : string) (w : World)
    (job : LighthouseJob) (labels : gmap string string) (pa : PipelineActivity)
    : LighthouseJob :=
  let job1 := labelledJob job labels pa in
  setActivity
    (match acceptedURL r templateText w pa with
     | Some url => setReportURL job1 url
     | None => job1
     end)
    (snapshotOf pa).

(** What the one-activity branch does. *)
Definition mirrorOutcome (r : LighthouseJobReconciler) (templateText : string)
    (w : World) (job : LighthouseJob) (pa : PipelineActivity) : exit * World :=
  match Labels job with
  | None => (Panicked "assignment to entry in nil map", w)
  | Some labels =>
      let job1 := labelledJob job labels pa in
      let w1 := withTrace w (UpdateCalled job1 :: trace w) in
      match updateErr (faults w) with
      | Some err => (Returned (Some err), withTrace w1 (updateFailedLog :: trace w1))
      | None =>
          let job3 := mirroredJob r templateText w job labels pa in
          let w2 := withTrace (withJobs w1 (<[jobKey job := job1]> (jobs w)))
                              (StatusUpdateCalled job3 ::
                               (renderLog r templateText w pa ++ trace w1)%list) in
          match statusUpdateErr (faults w) with
          | Some err => (Returned (Some err), withTrace w2 (statusFailedLog :: trace w2))
          | None => (Returned None, withJobs w2 (<[jobKey job := job3]> (jobs w2)))
          end
      end
  end.

End Outcomes.

(** ** A cluster to run the reconciler on *)

Module Sample.

Definition lowerAscii (c : ascii) : ascii :=
  let n := nat_of_ascii c in
  if ((65 <=? n) && (n <=? 90))%nat then ascii_of_nat (n + 32) else c.

Fixpoint lower (s : string) : string :=
  match s with
  | EmptyString => EmptyString
  | String c rest => String (lowerAscii c) (lower rest)
  end.

(** Sample library functions.  The templates of the samples stay inside the
    fragment of {!Template}, so the two template functions are never
    consulted on them. *)
#[local] Instance externals : Externals := {|
  ToValidName := lower;
  GetBranch := fun spec => BaseRef (SpecRefs spec);
  GetEnvVars := fun spec => list_to_map (EnvVars spec);
  PullRefString := specPullRefString;
  JenkinsXAgent := "jenkins-x";
  LegacyDefaultAgent := "tekton";
  BuildNumLabel := "lighthouse.jenkins-x.io/buildNum";
  ParseOther := fun _ => None;
  ExecuteOther := fun _ _ => inl (ErrMsg "syntax outside the fragment")
|}.

Definition key1 : PromoteStepActivityKey := {| keyName := "acme-widgets-main-1" |}.
Definition key2 : PromoteStepActivityKey := {| keyName := "acme-widgets-main-2" |}.
Definition crds : CRDWrapper := {| crdResources := ["pipeline"; "pipelinerun"] |}.

Definition activityOf (name build context : string) : PipelineActivity :=
  {| paName := name; paNamespace := "jx";
     paSpec := {| Build := build; GitOwner := "acme"; GitRepository := "widgets";
                  GitBranch := "main"; paContext := context |} |}.

(** An engine that numbers its runs and materialises the activity on apply. *)
Definition engine : Client := {|
  Create := fun _ acts => inr (key1, crds);
  Apply := fun key _ acts => (None, activityOf (keyName key) "1" "" :: acts)
|}.

(** An engine whose create is refused. *)
Definition brokenCreate : Client := {|
  Create := fun _ _ => inl (ErrMsg "no build pack");
  Apply := fun _ _ acts => (None, acts)
|}.

(** An engine whose apply is refused. *)
Definition brokenApply : Client := {|
  Create := fun _ _ => inr (key1, crds);
  Apply := fun _ _ acts => (Some (ErrMsg "admission webhook denied"), acts)
|}.

Definition noFaults : Faults :=
  {| getErr := None; listErr := None; updateErr := None; statusUpdateErr := None |}.

Definition conflictOnStatus : Faults :=
  {| getErr := None; listErr := None; updateErr := None;
     statusUpdateErr := Some ErrConflict |}.

Definition refsOf (pulls : list Pull) : Refs :=
  {| Org := "acme"; Repo := "widgets";
     CloneURI := "https://github.com/acme/widgets.git";
     BaseRef := "main"; BaseSHA := "0a1b2c"; Pulls := pulls |}.

Definition specOf (pulls : list Pull) : LighthouseJobSpec :=
  {| Agent := "tekton"; SpecRefs := refsOf pulls; SpecContext := "";
     SpecJob := "build"; EnvVars := [] |}.

Definition triggered : LighthouseJobStatus :=
  {| State := TriggeredState; ActivityName := ""; StartTime := None;
     ReportURL := ""; Activity := None |}.

Definition pending : LighthouseJobStatus :=
  {| State := PendingState; ActivityName := "acme-widgets-main-1";
     StartTime := Some 100; ReportURL := ""; Activity := None |}.

Definition jobOf (labels : option (gmap string string)) (pulls : list Pull)
    (st : LighthouseJobStatus) : LighthouseJob :=
  {| Name := "dummy"; Namespace := "jx"; Labels := labels;
     Spec := specOf pulls; Status := st |}.

Definition pr5 : Pull := {| Number := 5; SHA := "abc" |}.

Definition worldOf (job : LighthouseJob) (acts : list PipelineActivity)
    (env : gmap string string) (fs : Faults) : World :=
  {| jobs := {[ jobKey job := job ]}; activities := acts; environ := env;
     clock := 100; faults := fs; trace := [] |}.

Definition reportEnv : gmap string string :=
  {[ baseTargetURLEnvVar := "https://example.com/";
     targetURLTeamEnvVar := "some-team" ]}.

Definition reconciler (mp : Client) : LighthouseJobReconciler :=
  {| namespace := "jx"; mpClient := mp |}.

(** A job that was just submitted, on the base branch and for a pull request. *)
Definition freshJob : LighthouseJob := jobOf (Some ∅) [] triggered.
Definition prJob : LighthouseJob := jobOf (Some ∅) [pr5] triggered.

(** The job once it is Pending, with and without a label map. *)
Definition startedJob : LighthouseJob := jobOf (Some ∅) [] pending.
Definition unlabelledJob : LighthouseJob := jobOf None [] pending.

Definition activity3 : PipelineActivity := activityOf "acme-widgets-main-1" "3" "".
Definition activity4 : PipelineActivity := activityOf "Acme-Widgets-Main-1" "4" "".

Definition freshWorld : World := worldOf freshJob [] ∅ noFaults.
Definition conflictWorld : World := worldOf freshJob [] ∅ conflictOnStatus.
Definition prWorld : World := worldOf prJob [] ∅ noFaults.
Definition mirrorWorld : World := worldOf startedJob [activity3] reportEnv noFaults.
Definition unlabelledWorld : World := worldOf unlabelledJob [activity3] reportEnv noFaults.
Definition anomalyWorld : World := worldOf startedJob [activity3; activity4] ∅ noFaults.


Definition someParams : ReportParams :=
  {| rpBaseURL := "https://example.com"; rpOwner := "acme"; rpRepository := "widgets";
     rpBranch := "main"; rpBuild := "3"; rpContext := "jenkins-x"; rpTeam := "some-team" |}.

End Sample.

(** ** Construction and event dispatch *)

(** [NewLighthouseJobReconciler].  The factory [NewMetaPipelineClient] of
    this package is not part of the sources and is a parameter; [None] is
    the nil client. *)
Definition NewLighthouseJobReconciler
    (NewMetaPipelineClient : string -> error + Client)
    (ns : string) (mpClient : option Client) : error + LighthouseJobReconciler :=
  match mpClient with
  | None =>
      match NewMetaPipelineClient ns with
      | inl err => inl (ErrWrap err "failed to create metapipeline client")
      | inr _mpClient => inr {| namespace := ns; mpClient := _mpClient |}
      end
  | Some mpClient => inr {| namespace := ns; mpClient := mpClient |}
  end.

Section Dispatch.
Context `{X : Externals}.
Local Open Scope go_scope.

(** The jobs of a namespace that the index files under a value. *)
Definition matchingJobs (namespace value : string)
    (js : gmap (string * string) LighthouseJob) : list LighthouseJob :=
  List.filter
    (fun job => String.eqb (Namespace job) namespace &&
                existsb (String.eqb value) (lighthouseJobIndex job))
    (map snd (map_to_list js)).

(** [client.List] of jobs with [InNamespace] and [MatchingFields]. *)
Definition clientListJobs (namespace value : string) : M (error + list LighthouseJob) :=
  fun w =>
    match listErr (faults w) with
    | Some e => (Val (inl e), w)
    | None => (Val (inr (matchingJobs namespace value (jobs w))), w)
    end.

Definition failedListJobsLog : Event := Logged ErrorLevel "Failed list jobs: %s" [].
Definition foundJobsLog : Event :=
  Logged InfoLevel "Found jobs for activity %+v: %+v" [].

(** The map function that [SetupWithManager] gives to the watch on
    activities (lines 97-112): the reconcile requests for a changed
    activity. *)
Definition toRequests (o : PipelineActivity) : M (list NamespacedName) :=
  listed <- clientListJobs (paNamespace o) (ToValidName (paName o)) ;;
  match listed with
  | inl err =>
      emit failedListJobsLog ;;;
      pure []
  | inr items =>
      emit foundJobsLog ;;;
      pure (map (fun job => {| reqNamespace := Namespace job; reqName := Name job |})
                items)
  end.

(** Every job is stored under its own namespace and name. *)
Definition wellKeyed (w : World) : Prop :=
  forall key job, jobs w !! key = Some job -> jobKey job = key.

End Dispatch.

(** A string ends with a character. *)
Fixpoint endsWith (s : string) (c : ascii) : bool :=
  match s with
  | EmptyString => false
  | String d EmptyString => Ascii.eqb d c
  | String _ rest => endsWith rest c
  end.

(** The names of the fields of [ReportParams]. *)
Definition reportParamNames : list string :=
  ["BaseURL"; "Owner"; "Repository"; "Branch"; "Build"; "Context"; "Team"].

(** More of the sample cluster. *)
Module Cluster.
Import Sample.

(** A job served by another engine. *)
Definition foreignJob : LighthouseJob :=
  {| Name := "dummy"; Namespace := "jx"; Labels := Some ∅;
     Spec := {| Agent := "jenkins"; SpecRefs := refsOf []; SpecContext := "";
                SpecJob := "build"; EnvVars := [] |};
     Status := triggered |}.

Definition listFails : Faults :=
  {| getErr := None; listErr := Some (ErrMsg "cache not started");
     updateErr := None; statusUpdateErr := None |}.

Definition getFails : Faults :=
  {| getErr := Some (ErrMsg "connection refused"); listErr := None;
     updateErr := None; statusUpdateErr := None |}.

Definition updateFails : Faults :=
  {| getErr := None; listErr := None; updateErr := Some ErrConflict;
     statusUpdateErr := None |}.

Definition foreignWorld : World := worldOf foreignJob [] ∅ listFails.
Definition emptyWorld : World :=
  {| jobs := ∅; activities := []; environ := ∅; clock := 100;
     faults := noFaults; trace := [] |}.
Definition unreachableWorld : World := worldOf freshJob [] ∅ getFails.
Definition listFailsWorld : World := worldOf freshJob [] ∅ listFails.
Definition waitingWorld : World := worldOf startedJob [] ∅ noFaults.
Definition updateFailsWorld : World := worldOf startedJob [activity3] reportEnv updateFails.
Definition statusFailsWorld : World :=
  worldOf startedJob [activity3] reportEnv conflictOnStatus.
Definition serviceAccountEnv : gmap string string :=
  {[ "JX_SERVICE_ACCOUNT" := "builder" ]}.

(** An engine whose activity key has no name. *)
Definition namelessKey : PromoteStepActivityKey := {| keyName := "" |}.
Definition namelessEngine : Client := {|
  Create := fun _ _ => inr (namelessKey, crds);
  Apply := fun _ _ acts => (None, acts)
|}.


End Cluster.

(** ** Proof tools *)

(** Unfolds one layer of the state monad and the world accessors. *)
Ltac step_M :=
  unfold getReportURLBase, getReportURLTeam, triggerServiceAccount,
    createReportTargetURL,
    mpCreate, mpApply, clientUpdate, clientStatusUpdate, assignLabel,
    ConvertPipelineActivity, stored, jobKey, logf, entered, finish in *;
  unfold bind, pure, returnErr, panic, emit, Getenv, Now in *;
  cbn [fst snd jobs activities environ clock faults trace
       withJobs withActivities withTrace
       jobKey setLabels setStatus setReportURL setActivity
       Name Namespace Labels Spec Status
       State ActivityName StartTime ReportURL Activity] in *.

(** Runs a computation to its leaves, splitting on every test it makes. *)
Ltac run_M := repeat (step_M; case_match; simplify_eq); step_M.

(** ** The branches of [Reconcile] *)

Section Branches.
Context `{X : Externals}.
Variable r : LighthouseJobReconciler.

Lemma PipelineState_eqb_eq a b : PipelineState_eqb a b = true <-> a = b.
Proof. destruct a, b; cbn; split; intros H; try reflexivity; discriminate H. Qed.

Lemma Reconcile_reaches w job items :
  reaches w job items ->
  Reconcile r (requestFor job) w = finish (onActivities r job items (entered w)).
Proof.
  intros (Hget & Hjob & Hagent & Hlist & Hitems).
  unfold Reconcile, reconcile, clientGet, clientList. step_M.
  unfold storeKey, requestFor. cbn [reqNamespace reqName].
  rewrite Hget, Hjob, Hagent. step_M.
  rewrite Hlist, Hitems.
  destruct (onActivities r job items _) as [[[]|x] w']; reflexivity.
Qed.

Lemma triggerPipeline_outcome w job :
  stored w job = Some job ->
  finish (triggerPipeline r job w) = triggerOutcome r w job.
Proof.
  intros Hjob.
  unfold triggerOutcome, createResult, triggerPipeline, createParam, pendingJob,
    pendingStatus, triggerLog, statusFailedLog.
  cbv zeta. step_M.
  destruct (Create (mpClient r) _ (activities w)) as [err|[key crds]]; step_M;
    [reflexivity|].
  destruct (statusUpdateErr (faults w)); step_M; [reflexivity|].
  rewrite Hjob. step_M.
  destruct (Apply (mpClient r) key crds (activities w)) as [[err|] acts]; step_M;
    reflexivity.
Qed.

Lemma createReportTargetURL_run templateText params w :
  createReportTargetURL templateText params w =
  (Val (renderedURL templateText params),
   withTrace w (renderWarning templateText params ++ trace w)%list).
Proof.
  unfold createReportTargetURL, renderedURL, renderTargetURL, renderWarning.
  destruct w. destruct (toObjectMap params); [reflexivity|].
  destruct (Template.Parse templateText) as [err|tmpl]; [reflexivity|].
  destruct (Template.Execute tmpl _); reflexivity.
Qed.

Lemma mirrorActivity_outcome templateText w job pa :
  stored w job = Some job ->
  finish (mirrorActivity r templateText job pa w) = mirrorOutcome r templateText w job pa.
Proof.
  intros Hjob.
  unfold mirrorOutcome, mirrorActivity, mirroredJob, acceptedURL, renderLog,
    reportParamsIn, labelledJob, snapshotOf, statusFailedLog, updateFailedLog.
  unfold assignLabel, clientUpdate, clientStatusUpdate, ConvertPipelineActivity,
    getReportURLBase, getReportURLTeam, stored, jobKey, logf, finish in *.
  unfold bind, pure, returnErr, panic, emit, Getenv.
  destruct (Labels job) as [labels|]; [|reflexivity].
  cbn [faults jobs trace environ withTrace withJobs Name Namespace setLabels].
  destruct (updateErr (faults w)); [reflexivity|].
  rewrite Hjob.
  cbn [faults jobs trace environ withTrace withJobs Name Namespace setLabels].
  destruct (negb _).
  - rewrite createReportTargetURL_run.
    cbn [faults jobs trace environ withTrace withJobs andb].
    destruct (hasHTTPScheme _);
      cbn [faults jobs trace environ withTrace withJobs Name Namespace
           setLabels setStatus setReportURL setActivity];
      (destruct (statusUpdateErr (faults w)); [reflexivity|]);
      rewrite lookup_insert_eq; reflexivity.
  - cbn [faults jobs trace environ withTrace withJobs andb
         Name Namespace setLabels setStatus setReportURL setActivity app].
    destruct (statusUpdateErr (faults w)); [reflexivity|].
    rewrite lookup_insert_eq. reflexivity.
Qed.

Lemma Reconcile_trigger w job :
  reaches w job [] ->
  State (Status job) = TriggeredState ->
  Reconcile r (requestFor job) w = triggerOutcome r (entered w) job.
Proof.
  intros Hreach Hst. rewrite (Reconcile_reaches w job [] Hreach).
  unfold onActivities. rewrite Hst. cbn [PipelineState_eqb].
  apply triggerPipeline_outcome. apply Hreach.
Qed.

Lemma Reconcile_mirror w job pa :
  reaches w job [pa] ->
  Reconcile r (requestFor job) w =
  mirrorOutcome r defaultTargetURLTemplate (entered w) job pa.
Proof.
  intros Hreach. rewrite (Reconcile_reaches w job [pa] Hreach).
  unfold onActivities. apply mirrorActivity_outcome. apply Hreach.
Qed.

Lemma Reconcile_anomaly w job items :
  reaches w job items ->
  (1 < length items)%nat ->
  Reconcile r (requestFor job) w =
  (Returned None, withTrace w (anomalyLog :: entryLog :: trace w)).
Proof.
  intros Hreach Hlen. rewrite (Reconcile_reaches w job items Hreach).
  destruct items as [|pa [|pa' rest]]; cbn in Hlen; try lia.
  reflexivity.
Qed.

(** *** Jobs past the trigger point stay there *)

Lemma mirrorActivity_keeps templateText job pa w key :
  State (Status job) <> TriggeredState ->
  pastTrigger key w ->
  createCalls (trace (mirrorActivity r templateText job pa w).2) = createCalls (trace w) /\
  pastTrigger key (mirrorActivity r templateText job pa w).2.
Proof.
  intros Hst Hpast.
  unfold mirrorActivity. run_M.
  all: split; [cbn [createCalls]; reflexivity|].
  all: try exact Hpast.
  all: intros j; cbn [jobs withTrace withJobs]; rewrite ?lookup_insert;
    repeat case_decide; intros Hj; simplify_eq; try exact (Hpast j Hj);
    cbn; try exact Hst.
Qed.

Lemma pastTrigger_trace key w tr : pastTrigger key w -> pastTrigger key (withTrace w tr).
Proof. intros H j Hj. exact (H j Hj). Qed.

Lemma Reconcile_keeps req w :
  pastTrigger (storeKey req) w ->
  createCalls (trace (Reconcile r req w).2) = createCalls (trace w) /\
  pastTrigger (storeKey req) (Reconcile r req w).2.
Proof.
  intros Hpast.
  unfold Reconcile, reconcile, clientGet, clientList. step_M.
  destruct (getErr (faults w)); step_M; [split; [reflexivity|exact Hpast]|].
  destruct (jobs w !! storeKey req) as [job|] eqn:Hjob; step_M;
    [|split; [reflexivity|exact Hpast]].
  destruct (otherAgent job); step_M; [split; [reflexivity|exact Hpast]|].
  destruct (listErr (faults w)); step_M; [split; [reflexivity|exact Hpast]|].
  pose proof (Hpast job Hjob) as Hst.
  unfold onActivities.
  destruct (matchingFields _ _ _) as [|pa [|pa' rest]].
  - destruct (PipelineState_eqb _ _) eqn:Heq.
    + apply PipelineState_eqb_eq in Heq. contradiction.
    + step_M. split; [reflexivity|exact Hpast].
  - set (w1 := withTrace w _).
    destruct (mirrorActivity_keeps defaultTargetURLTemplate job pa w1 (storeKey req) Hst)
      as [Hc Hp]; [apply pastTrigger_trace; exact Hpast|].
    destruct (mirrorActivity r defaultTargetURLTemplate job pa w1) as [[a|x] w2];
      cbn [fst snd] in *; (split; [exact Hc|exact Hp]).
  - step_M. split; [reflexivity|exact Hpast].
Qed.

Lemma later_keeps req w w' :
  later r req w w' ->
  pastTrigger (storeKey req) w ->
  createCalls (trace w') = createCalls (trace w) /\ pastTrigger (storeKey req) w'.
Proof.
  induction 1 as [w|w w1 Hlater IH|w w1 w2 Hlater IH Hjobs Htrace]; intros Hpast.
  - split; [reflexivity|exact Hpast].
  - destruct (IH Hpast) as [Hc Hp].
    destruct (Reconcile_keeps req w1 Hp) as [Hc' Hp'].
    split; [congruence|exact Hp'].
  - destruct (IH Hpast) as [Hc Hp].
    split; [congruence|].
    intros j Hj. rewrite Hjobs in Hj. exact (Hp j Hj).
Qed.

End Branches.

(** ** The trigger branch *)

Section Trigger.
Context `{X : Externals}.
Variable r : LighthouseJobReconciler.

Lemma triggerOutcome_trace w job :
  exists evs,
    trace (triggerOutcome r w job).2 =
    (evs ++ CreateCalled (createParam w (Spec job)) :: triggerLog (Spec job) :: trace w)%list /\
    createCalls evs = [] /\
    (applyCalls evs <> [] ->
     exists key crds,
       createResult r w job = inr (key, crds) /\
       statusUpdateErr (faults w) = None /\
       evs = [ApplyCalled key crds; StatusUpdateCalled (pendingJob job key (clock w))]).
Proof.
  unfold triggerOutcome.
  destruct (createResult r w job) as [err|[key crds]].
  { exists []. repeat split; try reflexivity. intros H; contradiction H; reflexivity. }
  destruct (statusUpdateErr (faults w)) as [err|].
  { exists [statusFailedLog; StatusUpdateCalled (pendingJob job key (clock w))].
    repeat split; try reflexivity. intros H; contradiction H; reflexivity. }
  exists [ApplyCalled key crds; StatusUpdateCalled (pendingJob job key (clock w))].
  destruct (Apply (mpClient r) key crds (activities w)).1;
    (repeat split; try reflexivity; intros _; exists key, crds; repeat split; reflexivity).
Qed.

Lemma createCalls_app evs tr :
  createCalls (evs ++ tr)%list = (createCalls evs ++ createCalls tr)%list.
Proof.
  induction evs as [|[] evs IH]; cbn [createCalls app]; rewrite ?IH; reflexivity.
Qed.

Lemma triggerOutcome_calls w job :
  createCalls (trace (triggerOutcome r w job).2) =
  createParam w (Spec job) :: createCalls (trace w).
Proof.
  destruct (triggerOutcome_trace w job) as (evs & -> & Hnone & _).
  rewrite createCalls_app, Hnone. reflexivity.
Qed.

Lemma triggerOutcome_committed w job key crds :
  createResult r w job = inr (key, crds) ->
  statusUpdateErr (faults w) = None ->
  jobs (triggerOutcome r w job).2 = <[jobKey job := pendingJob job key (clock w)]> (jobs w).
Proof.
  intros Hcreate Hstatus. unfold triggerOutcome. rewrite Hcreate, Hstatus.
  destruct (Apply (mpClient r) key crds (activities w)).1; reflexivity.
Qed.

Lemma triggerOutcome_uncommitted w job :
  ~ committed r w job -> jobs (triggerOutcome r w job).2 = jobs w.
Proof.
  intros Hnot. unfold triggerOutcome.
  destruct (createResult r w job) as [err|[key crds]] eqn:Hcreate; [reflexivity|].
  destruct (statusUpdateErr (faults w)) as [err|] eqn:Hstatus; [reflexivity|].
  contradiction Hnot. split; [exists key, crds; exact Hcreate|exact Hstatus].
Qed.

(** C1, as the code has it: a reconciliation of a triggered job without
    activities calls the engine's create exactly once.  The stored job
    becomes Pending exactly when create succeeds and the status write is
    accepted; it then carries the normalised name of the engine's key as
    its ActivityName, which is empty exactly when that name is, and the
    clock as its start time; otherwise the stored jobs are unchanged.  Once
    the stored job is Pending, no later reconciliation of it calls create. *)
Theorem trigger_creates_once_commits_pending w job :
  reaches w job [] ->
  State (Status job) = TriggeredState ->
  let w' := (Reconcile r (requestFor job) w).2 in
  createCalls (trace w') = createParam w (Spec job) :: createCalls (trace w) /\
  (storedPending w' job <-> committed r w job) /\
  (forall key crds,
     createResult r w job = inr (key, crds) ->
     statusUpdateErr (faults w) = None ->
     stored w' job = Some (pendingJob job key (clock w)) /\
     ActivityName (Status (pendingJob job key (clock w))) = ToValidName (keyName key) /\
     StartTime (Status (pendingJob job key (clock w))) = Some (clock w) /\
     (forall j, stored w' job = Some j ->
                (ActivityName (Status j) = "" <-> ToValidName (keyName key) = ""))) /\
  (~ committed r w job -> jobs w' = jobs w) /\
  (forall w'',
     storedPending w' job ->
     later r (requestFor job) w' w'' ->
     createCalls (trace w'') = createCalls (trace w')).
Proof.
  intros Hreach Hst w'. subst w'.
  rewrite (Reconcile_trigger r w job Hreach Hst).
  pose proof Hreach as (_ & Hjob & _).
  set (w' := (triggerOutcome r (entered w) job).2).
  assert (Hyes : forall key crds,
             createResult r w job = inr (key, crds) ->
             statusUpdateErr (faults w) = None ->
             stored w' job = Some (pendingJob job key (clock w))).
  { intros key crds Hcreate Hstatus. unfold stored, w'.
    rewrite (triggerOutcome_committed (entered w) job key crds Hcreate Hstatus).
    apply lookup_insert_eq. }
  assert (Hno : ~ committed r w job -> jobs w' = jobs w).
  { exact (triggerOutcome_uncommitted (entered w) job). }
  split; [exact (triggerOutcome_calls (entered w) job)|].
  split; [split|].
  - intros (j & Hj & Hpending).
    destruct (createResult r w job) as [err|[key crds]] eqn:Hcreate.
    + unfold stored in Hj. rewrite Hno in Hj.
      * rewrite Hjob in Hj. congruence.
      * intros ((k & c & Hk) & _). congruence.
    + destruct (statusUpdateErr (faults w)) as [err|] eqn:Hstatus.
      * unfold stored in Hj. rewrite Hno in Hj.
        -- rewrite Hjob in Hj. congruence.
        -- intros (_ & Hnone). congruence.
      * split; [exists key, crds; exact Hcreate|exact Hstatus].
  - intros ((key & crds & Hcreate) & Hstatus).
    exists (pendingJob job key (clock w)). split; [|reflexivity].
    exact (Hyes key crds Hcreate Hstatus).
  - split; [|split].
    + intros key crds Hcreate Hstatus.
      split; [exact (Hyes key crds Hcreate Hstatus)|].
      split; [reflexivity|]. split; [reflexivity|].
      intros j Hj. rewrite (Hyes key crds Hcreate Hstatus) in Hj.
      injection Hj as <-. reflexivity.
    + exact Hno.
    + intros w'' (j & Hj & Hpending) Hlater.
      refine (proj1 (later_keeps r (requestFor job) w' w'' Hlater _)).
      intros j' Hj'. unfold stored in Hj.
      change (storeKey (requestFor job)) with (jobKey job) in Hj'.
      rewrite Hj in Hj'. injection Hj' as <-. rewrite Hpending. discriminate.
Qed.

(** C4: when create has succeeded, apply is attempted only after the
    server has accepted the Pending status with the assigned ActivityName:
    the status write sits between create and apply in the trace.  Whatever
    apply answers, the stored job keeps that status; when apply fails,
    Reconcile returns its error wrapped with the stage that failed. *)
Theorem pending_committed_before_apply w job key crds :
  reaches w job [] ->
  State (Status job) = TriggeredState ->
  createResult r w job = inr (key, crds) ->
  let out := Reconcile r (requestFor job) w in
  let applied := Apply (mpClient r) key crds (activities w) in
  (applyCalls (trace out.2) <> applyCalls (trace w) ->
   statusUpdateErr (faults w) = None) /\
  (statusUpdateErr (faults w) = None ->
   trace out.2 =
     ApplyCalled key crds ::
     StatusUpdateCalled (pendingJob job key (clock w)) ::
     CreateCalled (createParam w (Spec job)) ::
     triggerLog (Spec job) :: entryLog :: trace w /\
   stored out.2 job = Some (pendingJob job key (clock w)) /\
   State (Status (pendingJob job key (clock w))) = PendingState /\
   ActivityName (Status (pendingJob job key (clock w))) = ToValidName (keyName key) /\
   (forall err, applied.1 = Some err ->
      out.1 = Returned (Some (ErrWrap err "unable to apply Tekton CRDs"))) /\
   (applied.1 = None -> out.1 = Returned None)).
Proof.
  intros Hreach Hst Hcreate out applied. subst out applied.
  rewrite (Reconcile_trigger r w job Hreach Hst).
  unfold triggerOutcome.
  change (createResult r (entered w) job) with (createResult r w job).
  rewrite Hcreate. cbn [faults entered withTrace clock activities trace].
  destruct (statusUpdateErr (faults w)) as [err|].
  - split; [|discriminate]. intros Hcalls. contradiction Hcalls. reflexivity.
  - split; [reflexivity|]. intros _.
    destruct (Apply (mpClient r) key crds (activities w)) as [[err|] acts];
      cbn [fst snd trace withActivities withTrace].
    + repeat split.
      * unfold stored. cbn [jobs withActivities withTrace withJobs].
        apply lookup_insert_eq.
      * intros e He. injection He as <-. reflexivity.
      * discriminate.
    + repeat split.
      * unfold stored. cbn [jobs withActivities withTrace withJobs].
        apply lookup_insert_eq.
      * discriminate.
Qed.

(** C6: the run kind that the trigger branch passes to create is
    pull-request when the job has at least one pull request and release
    when it has none. *)
Theorem run_kind_follows_pulls w job :
  reaches w job [] ->
  State (Status job) = TriggeredState ->
  exists param,
    createCalls (trace (Reconcile r (requestFor job) w).2) =
      param :: createCalls (trace w) /\
    ((1 <= length (Pulls (SpecRefs (Spec job))))%nat ->
     pcPipelineKind param = PullRequestPipeline) /\
    (Pulls (SpecRefs (Spec job)) = [] -> pcPipelineKind param = ReleasePipeline).
Proof.
  intros Hreach Hst. exists (createParam w (Spec job)).
  rewrite (Reconcile_trigger r w job Hreach Hst).
  split; [exact (triggerOutcome_calls (entered w) job)|].
  unfold createParam, triggerKind. cbn [pcPipelineKind].
  destruct (Pulls (SpecRefs (Spec job))) as [|pull pulls]; cbn [length].
  - split; [lia|reflexivity].
  - split; [reflexivity|discriminate].
Qed.

(** C5: with more than one correlated activity a reconciliation logs the
    anomaly and nothing else: the stored jobs and the activities are those
    it found, nothing is written, the engine is not called, and the nil
    error is returned. *)
Theorem many_activities_only_logged w job items :
  reaches w job items ->
  (1 < length items)%nat ->
  let out := Reconcile r (requestFor job) w in
  out.1 = Returned None /\
  trace out.2 = anomalyLog :: entryLog :: trace w /\
  jobs out.2 = jobs w /\
  activities out.2 = activities w /\
  writeCalls (trace out.2) = writeCalls (trace w) /\
  createCalls (trace out.2) = createCalls (trace w) /\
  applyCalls (trace out.2) = applyCalls (trace w).
Proof.
  intros Hreach Hlen out. subst out.
  rewrite (Reconcile_anomaly r w job items Hreach Hlen).
  repeat split.
Qed.

End Trigger.

(** ** The one-activity branch *)

Section Mirror.
Context `{X : Externals}.
Variable r : LighthouseJobReconciler.

Lemma mirrorOutcome_returns_nil templateText w job pa :
  (mirrorOutcome r templateText w job pa).1 = Returned None ->
  exists labels,
    Labels job = Some labels /\
    updateErr (faults w) = None /\
    statusUpdateErr (faults w) = None /\
    stored (mirrorOutcome r templateText w job pa).2 job =
      Some (mirroredJob r templateText w job labels pa).
Proof.
  unfold mirrorOutcome.
  destruct (Labels job) as [labels|]; [|discriminate].
  destruct (updateErr (faults w)); [discriminate|].
  cbn [faults withTrace withJobs].
  destruct (statusUpdateErr (faults w)); [discriminate|].
  intros _. exists labels. repeat split.
  unfold stored. cbn [snd jobs withJobs withTrace]. apply lookup_insert_eq.
Qed.

Lemma Reconcile_mirror_returns_nil w job pa :
  reaches w job [pa] ->
  (Reconcile r (requestFor job) w).1 = Returned None ->
  exists labels,
    Labels job = Some labels /\
    stored (Reconcile r (requestFor job) w).2 job =
      Some (mirroredJob r defaultTargetURLTemplate w job labels pa).
Proof.
  intros Hreach Hnil. rewrite (Reconcile_mirror r w job pa Hreach) in *.
  destruct (mirrorOutcome_returns_nil _ _ _ _ Hnil) as (labels & Hl & _ & _ & Hs).
  exists labels. split; [exact Hl|exact Hs].
Qed.

Lemma eqb_empty_false s : s <> "" -> String.eqb s "" = false.
Proof. intros H. apply String.eqb_neq. exact H. Qed.

(** C2: after a reconciliation that found exactly one activity and
    returned the nil error, the stored job carries the activity's build
    under the build-number label, and its status snapshot has the owner,
    repository, branch, build identifier and context of the activity. *)
Theorem activity_mirrored_onto_job w job pa :
  reaches w job [pa] ->
  (Reconcile r (requestFor job) w).1 = Returned None ->
  exists j labels record,
    stored (Reconcile r (requestFor job) w).2 job = Some j /\
    Labels j = Some labels /\
    labels !! BuildNumLabel = Some (Build (paSpec pa)) /\
    Activity (Status j) = Some record /\
    arOwner record = GitOwner (paSpec pa) /\
    arRepo record = GitRepository (paSpec pa) /\
    arBranch record = GitBranch (paSpec pa) /\
    arBuildIdentifier record = Build (paSpec pa) /\
    arContext record = paContext (paSpec pa).
Proof.
  intros Hreach Hnil.
  destruct (Reconcile_mirror_returns_nil w job pa Hreach Hnil) as (labels & Hl & Hs).
  exists (mirroredJob r defaultTargetURLTemplate w job labels pa),
    (<[BuildNumLabel := Build (paSpec pa)]> labels), (snapshotOf pa).
  split; [exact Hs|].
  split; [unfold mirroredJob; destruct (acceptedURL _ _ _ _); reflexivity|].
  split; [apply lookup_insert_eq|].
  repeat split.
Qed.

(** C3: after a reconciliation that found exactly one activity and
    returned the nil error, the stored report URL is the rendered URL when
    the configured base is non-empty, the render succeeds and its result
    starts with http:// or https://; in every other case it is the report
    URL the job had. *)
Theorem report_url_assigned_iff w job pa :
  reaches w job [pa] ->
  (Reconcile r (requestFor job) w).1 = Returned None ->
  let base := default "" (environ w !! baseTargetURLEnvVar) in
  let rendered :=
    renderTargetURL defaultTargetURLTemplate (reportParamsIn r w (snapshotOf pa)) in
  exists j,
    stored (Reconcile r (requestFor job) w).2 job = Some j /\
    (forall url,
       base <> "" -> rendered = inr url ->
       HasPrefix url "http://" = true \/ HasPrefix url "https://" = true ->
       ReportURL (Status j) = url) /\
    (base = "" \/
     (exists err, rendered = inl err) \/
     (exists url, rendered = inr url /\
        HasPrefix url "http://" = false /\ HasPrefix url "https://" = false) ->
     ReportURL (Status j) = ReportURL (Status job)).
Proof.
  intros Hreach Hnil base rendered.
  destruct (Reconcile_mirror_returns_nil w job pa Hreach Hnil) as (labels & Hl & Hs).
  exists (mirroredJob r defaultTargetURLTemplate w job labels pa).
  split; [exact Hs|].
  unfold mirroredJob, acceptedURL, renderedURL.
  fold base rendered.
  split.
  - intros url Hbase Hrendered Hscheme. rewrite Hrendered.
    rewrite (eqb_empty_false base Hbase). unfold hasHTTPScheme.
    destruct Hscheme as [-> | ->]; rewrite ?orb_true_r; reflexivity.
  - intros [Hbase | [(err & Herr) | (url & Hurl & Hhttp & Hhttps)]].
    + rewrite Hbase. reflexivity.
    + rewrite Herr. rewrite andb_false_r. reflexivity.
    + rewrite Hurl. unfold hasHTTPScheme. rewrite Hhttp, Hhttps, andb_false_r.
      reflexivity.
Qed.

(** C10: the label of the one-activity branch is assigned into the job's
    label map as it was read.  For a job without labels the map is nil and
    the reconciliation panics at the assignment, before anything is
    written; for a job with labels it does not panic. *)
Theorem label_assignment_needs_labels w job pa :
  reaches w job [pa] ->
  (Labels job = None ->
   Reconcile r (requestFor job) w =
     (Panicked "assignment to entry in nil map", entered w)) /\
  (forall labels, Labels job = Some labels ->
   forall msg, (Reconcile r (requestFor job) w).1 <> Panicked msg) /\
  (forall key value w0,
     Labels job = None <->
     assignLabel job key value w0 = (Exit (Panicked "assignment to entry in nil map"), w0)).
Proof.
  intros Hreach. rewrite (Reconcile_mirror r w job pa Hreach).
  unfold mirrorOutcome, assignLabel, panic, pure.
  split; [|split].
  - intros ->. reflexivity.
  - intros labels -> msg.
    destruct (updateErr (faults (entered w))); [discriminate|].
    cbn [faults withTrace withJobs].
    destruct (statusUpdateErr (faults (entered w))); discriminate.
  - intros key value w0. destruct (Labels job); split; intros H;
      try discriminate H; reflexivity.
Qed.

End Mirror.

(** ** The pull-ref descriptor *)

Section Substrings.

Lemma prefix_refl s : String.prefix s s = true.
Proof.
  induction s as [|c s IH]; [reflexivity|].
  cbn [String.prefix]. destruct (ascii_dec c c); [exact IH|contradiction].
Qed.

Lemma prefix_app p s t : String.prefix p s = true -> String.prefix p (s ++ t) = true.
Proof.
  revert s. induction p as [|c p IH]; intros s H; [destruct (s ++ t); reflexivity|].
  destruct s as [|d s]; [discriminate H|].
  simpl in *. destruct (ascii_dec c d); [|discriminate H].
  apply IH. exact H.
Qed.

Lemma Contains_empty s : Contains s "" = true.
Proof. destruct s; reflexivity. Qed.

Lemma Contains_refl s : Contains s s = true.
Proof. destruct s; cbn [Contains]; rewrite prefix_refl; reflexivity. Qed.

Lemma Contains_app_l s t sub : Contains s sub = true -> Contains (s ++ t) sub = true.
Proof.
  induction s as [|c s IH]; intros H.
  - destruct sub; [apply Contains_empty|discriminate H].
  - change (String c s ++ t) with (String c (s ++ t)).
    cbn [Contains] in *. apply orb_true_iff in H. apply orb_true_iff.
    destruct H as [H|H].
    + left. apply (prefix_app sub (String c s) t H).
    + right. apply IH. exact H.
Qed.

Lemma Contains_app_r s t sub : Contains t sub = true -> Contains (s ++ t) sub = true.
Proof.
  intros H. induction s as [|c s IH]; [exact H|].
  change (String c s ++ t) with (String c (s ++ t)).
  cbn [Contains]. rewrite IH. apply orb_true_r.
Qed.

Lemma Contains_Join l sep x : In x l -> Contains (Join l sep) x = true.
Proof.
  unfold Join. induction l as [|a l IH]; [contradiction|].
  intros [->|Hin]; cbn [String.concat].
  - destruct l; [apply Contains_refl|]. apply Contains_app_l, Contains_refl.
  - destruct l as [|b l]; [contradiction Hin|].
    apply Contains_app_r, Contains_app_r, IH. exact Hin.
Qed.

(** The rendering that the spec describes shows every pull request. *)
Lemma specPullRefString_shows pr p :
  In p (pullRequests pr) ->
  Contains (specPullRefString pr) (ID p ++ ":" ++ MergeSHA p) = true.
Proof.
  intros Hin. unfold specPullRefString. apply Contains_Join.
  apply (in_map (fun p => ID p ++ ":" ++ MergeSHA p)). exact Hin.
Qed.

End Substrings.

Section Descriptor.
Context `{X : Externals}.
Variable r : LighthouseJobReconciler.

Lemma append_empty_inv (a b : string) : a ++ b = "" -> a = "".
Proof. destruct a; [reflexivity|discriminate]. Qed.

Lemma Join_pairs_nonempty (f g : Pull -> string) pull pulls :
  Join (map (fun p => f p ++ ":" ++ g p) (pull :: pulls)) "," <> "".
Proof.
  unfold Join. cbn [map String.concat].
  assert (Hhead : f pull ++ ":" ++ g pull <> "").
  { destruct (f pull); discriminate. }
  destruct (map _ pulls); [exact Hhead|].
  intros H. apply append_empty_inv in H. contradiction.
Qed.

Lemma triggerOutcome_logs w job :
  In (triggerLog (Spec job)) (trace (triggerOutcome r w job).2).
Proof.
  destruct (triggerOutcome_trace r w job) as (evs & -> & _).
  apply in_or_app. right. right. left. reflexivity.
Qed.

Lemma triggerPullRefs_rendering spec :
  Pulls (SpecRefs spec) <> [] ->
  PullRefString (getPullRefs (CloneURI (SpecRefs spec)) spec) <> "" ->
  triggerPullRefs spec = PullRefString (getPullRefs (CloneURI (SpecRefs spec)) spec).
Proof.
  intros Hpulls Hrendering. unfold triggerPullRefs.
  destruct (Pulls (SpecRefs spec)) as [|pull rest] eqn:Hp; [contradiction|].
  cbn [length Nat.ltb Nat.leb]. rewrite (eqb_empty_false _ Hrendering). reflexivity.
Qed.

(** C7: the descriptor that the trigger branch logs is the branch followed
    by a colon when the job has no pull requests, and with pull requests it
    is the rendering of the pull ref.  Where that rendering is the
    comma-joined list of number:revision pairs, so is the descriptor; and
    under every rendering that shows each pull request as number:revision,
    the descriptor of the single pull request 5 at revision abc contains
    5:abc. *)
Theorem pull_ref_descriptor w job :
  reaches w job [] ->
  State (Status job) = TriggeredState ->
  let spec := Spec job in
  let pulls := Pulls (SpecRefs spec) in
  let rendering := PullRefString (getPullRefs (CloneURI (SpecRefs spec)) spec) in
  In (triggerLog spec) (trace (Reconcile r (requestFor job) w).2) /\
  (pulls = [] -> triggerPullRefs spec = triggerBranch spec ++ ":") /\
  (pulls <> [] -> rendering <> "" -> triggerPullRefs spec = rendering) /\
  ((forall pr, PullRefString pr = specPullRefString pr) ->
   pulls <> [] ->
   triggerPullRefs spec =
     Join (map (fun pull => Itoa (Number pull) ++ ":" ++ SHA pull) pulls) ",") /\
  ((forall pr p, In p (pullRequests pr) ->
      Contains (PullRefString pr) (ID p ++ ":" ++ MergeSHA p) = true) ->
   pulls = [{| Number := 5; SHA := "abc" |}] ->
   Contains (triggerPullRefs spec) "5:abc" = true).
Proof.
  intros Hreach Hst spec pulls rendering.
  rewrite (Reconcile_trigger r w job Hreach Hst).
  split; [apply triggerOutcome_logs|].
  split; [|split; [|split]].
  - intros Hpulls. unfold triggerPullRefs. fold pulls. rewrite Hpulls. reflexivity.
  - apply triggerPullRefs_rendering.
  - intros Hrender Hpulls.
    assert (Hjoined : rendering =
              Join (map (fun pull => Itoa (Number pull) ++ ":" ++ SHA pull) pulls) ",").
    { unfold rendering, getPullRefs. fold pulls.
      destruct pulls as [|pull rest] eqn:Hp; [contradiction|].
      cbn [length Nat.ltb Nat.leb].
      rewrite Hrender. unfold specPullRefString, NewPullRefWithPullRequest.
      cbn [pullRequests]. rewrite map_map. reflexivity. }
    rewrite (triggerPullRefs_rendering spec Hpulls); [exact Hjoined|].
    fold rendering. rewrite Hjoined.
    destruct pulls as [|pull rest]; [contradiction|]. apply Join_pairs_nonempty.
  - intros Hshows Hpulls.
    assert (Hshown : Contains rendering "5:abc" = true).
    { apply (Hshows (getPullRefs (CloneURI (SpecRefs spec)) spec)
                    {| ID := "5"; MergeSHA := "abc" |}).
      unfold getPullRefs. fold pulls. rewrite Hpulls. left. reflexivity. }
    rewrite triggerPullRefs_rendering; [exact Hshown| |].
    + fold pulls. rewrite Hpulls. discriminate.
    + fold rendering. intros Hempty. rewrite Hempty in Hshown. discriminate Hshown.
Qed.

End Descriptor.

(** ** The URL renderer *)

Section Renderer.
Context `{X : Externals}.

Lemma run_missing steps data name :
  In (Template.Eval name) steps ->
  data !! name = None ->
  exists err, Template.run steps data = inl err.
Proof.
  intros Hin Hmissing.
  induction steps as [|[text|field] rest IH]; [contradiction Hin| |].
  - destruct Hin as [Hhead|Htail]; [discriminate Hhead|].
    destruct (IH Htail) as (err & Herr). cbn [Template.run].
    rewrite Herr. exists err. reflexivity.
  - cbn [Template.run].
    destruct (data !! field) as [v|] eqn:Hfield; [|eexists; reflexivity].
    destruct Hin as [Hhead|Htail]; [injection Hhead as ->; congruence|].
    destruct (IH Htail) as (err & Herr). rewrite Herr. exists err. reflexivity.
Qed.

Lemma append_empty_r (s : string) : s ++ "" = s.
Proof.
  induction s as [|c s IH]; [reflexivity|].
  change (String c s ++ "") with (String c (s ++ "")). f_equal. exact IH.
Qed.

Lemma default_template_parses :
  Template.Parse defaultTargetURLTemplate =
  inr (Template.Tree
         [Template.FieldNode "BaseURL"; Template.TextNode "/teams/";
          Template.FieldNode "Team"; Template.TextNode "/projects/";
          Template.FieldNode "Owner"; Template.TextNode "/";
          Template.FieldNode "Repository"; Template.TextNode "/";
          Template.FieldNode "Branch"; Template.TextNode "/";
          Template.FieldNode "Build"]).
Proof. vm_compute. reflexivity. Qed.

(** The default template resolves all its variables: it always renders. *)
Lemma default_template_renders (p : ReportParams) :
  renderTargetURL defaultTargetURLTemplate p =
  inr (rpBaseURL p ++ "/teams/" ++ rpTeam p ++ "/projects/" ++ rpOwner p ++ "/" ++
       rpRepository p ++ "/" ++ rpBranch p ++ "/" ++ rpBuild p).
Proof.
  unfold renderTargetURL, toObjectMap. rewrite default_template_parses.
  cbn [Template.Execute Template.walk Template.walkNode flat_map app Template.run].
  simplify_map_eq. rewrite append_empty_r. reflexivity.
Qed.

(** Which variables resolve does not depend on the values of the record. *)
Lemma resolves_any_params params params' name :
  resolves params name = resolves params' name.
Proof.
  unfold resolves, toObjectMap. rewrite !lookup_insert.
  repeat case_decide; reflexivity.
Qed.

(** The render fails for every parameter record once the execution of the
    template evaluates a variable that the record does not have. *)
Lemma evaluated_unresolved_fails templateText nodes name params :
  Template.Parse templateText = inr (Template.Tree nodes) ->
  In (Template.Eval name) (Template.walk nodes) ->
  resolves params name = false ->
  forall p, exists err, renderTargetURL templateText p = inl err.
Proof.
  intros Hparse Hin Hresolves p.
  rewrite (resolves_any_params params p name) in Hresolves.
  unfold resolves in Hresolves. unfold renderTargetURL. rewrite Hparse.
  destruct (toObjectMap p) as [err|data]; [exists err; reflexivity|].
  cbn [Template.Execute]. apply (run_missing _ data name Hin).
  destruct (data !! name); [discriminate Hresolves|reflexivity].
Qed.




End Renderer.

(** ** The properties on the sample cluster *)

Module Examples.
Import Sample.
#[local] Existing Instance Sample.externals.

(** The spec's first scenario: the job dummy in namespace jx, triggered on
    the base branch, is Pending after one reconciliation and the engine has
    materialised one activity. *)
Example scenario_trigger :
  Reconcile (reconciler engine) (requestFor freshJob) freshWorld =
  (Returned None,
   {| jobs := {[ ("jx", "dummy") := jobOf (Some ∅) [] pending ]};
      activities := [activityOf "acme-widgets-main-1" "1" ""];
      environ := ∅;
      clock := 100;
      faults := noFaults;
      trace := [ApplyCalled key1 crds;
                StatusUpdateCalled (jobOf (Some ∅) [] pending);
                CreateCalled (createParam freshWorld (specOf []));
                triggerLog (specOf []);
                entryLog] |}).
Proof. vm_compute. reflexivity. Qed.

(** The spec's second scenario: the report URL of the mirrored job. *)
Example scenario_report_url :
  option_map (fun j => ReportURL (Status j))
    (stored (Reconcile (reconciler engine) (requestFor startedJob) mirrorWorld).2 startedJob) =
  Some "https://example.com/teams/some-team/projects/acme/widgets/main/3".
Proof. vm_compute. reflexivity. Qed.

(** C1 fails as stated, in two ways.  Create succeeds and the server
    refuses the status write with a conflict: the stored job is still the
    triggered job without an ActivityName, and the next reconciliation calls
    create again.  Create succeeds with a key that has no name and the
    status write is accepted: the stored job is Pending with the empty
    ActivityName. *)
Lemma trigger_conflict_counterexample :
  reaches conflictWorld freshJob [] /\
  State (Status freshJob) = TriggeredState /\
  createResult (reconciler engine) conflictWorld freshJob = inr (key1, crds) /\
  (Reconcile (reconciler engine) (requestFor freshJob) conflictWorld).1 =
    Returned (Some ErrConflict) /\
  stored (Reconcile (reconciler engine) (requestFor freshJob) conflictWorld).2 freshJob =
    Some freshJob /\
  ~ storedPending
      (Reconcile (reconciler engine) (requestFor freshJob) conflictWorld).2 freshJob /\
  length (createCalls
            (trace (Reconcile (reconciler engine) (requestFor freshJob)
                      (Reconcile (reconciler engine) (requestFor freshJob)
                         conflictWorld).2).2)) = 2%nat /\
  reaches freshWorld freshJob [] /\
  createResult (reconciler Cluster.namelessEngine) freshWorld freshJob =
    inr (Cluster.namelessKey, crds) /\
  (Reconcile (reconciler Cluster.namelessEngine) (requestFor freshJob) freshWorld).1 =
    Returned None /\
  option_map (fun j => (State (Status j), ActivityName (Status j)))
    (stored (Reconcile (reconciler Cluster.namelessEngine) (requestFor freshJob)
               freshWorld).2 freshJob) =
    Some (PendingState, "").
Proof.
  assert (Hstored :
    stored (Reconcile (reconciler engine) (requestFor freshJob) conflictWorld).2 freshJob =
    Some freshJob) by (vm_compute; reflexivity).
  repeat split; try (vm_compute; reflexivity).
  intros (j & Hj & Hpending). rewrite Hstored in Hj. injection Hj as <-.
  discriminate Hpending.
Qed.

Lemma trigger_creates_once_commits_pending_witness :
  reaches freshWorld freshJob [] /\
  State (Status freshJob) = TriggeredState /\
  createCalls (trace (Reconcile (reconciler engine) (requestFor freshJob) freshWorld).2) =
    [createParam freshWorld (Spec freshJob)] /\
  storedPending (Reconcile (reconciler engine) (requestFor freshJob) freshWorld).2 freshJob.
Proof.
  assert (Hreach : reaches freshWorld freshJob []) by (repeat split; reflexivity).
  assert (Hst : State (Status freshJob) = TriggeredState) by reflexivity.
  destruct (trigger_creates_once_commits_pending (reconciler engine) freshWorld freshJob
              Hreach Hst) as (Hcalls & Hiff & _).
  split; [exact Hreach|]. split; [exact Hst|]. split; [exact Hcalls|].
  apply Hiff. split; [exists key1, crds|]; reflexivity.
Defined.

Lemma pending_committed_before_apply_witness :
  reaches freshWorld freshJob [] /\
  State (Status freshJob) = TriggeredState /\
  createResult (reconciler brokenApply) freshWorld freshJob = inr (key1, crds) /\
  (Reconcile (reconciler brokenApply) (requestFor freshJob) freshWorld).1 =
    Returned (Some (ErrWrap (ErrMsg "admission webhook denied")
                      "unable to apply Tekton CRDs")) /\
  stored (Reconcile (reconciler brokenApply) (requestFor freshJob) freshWorld).2 freshJob =
    Some (jobOf (Some ∅) [] pending).
Proof.
  assert (Hreach : reaches freshWorld freshJob []) by (repeat split; reflexivity).
  assert (Hst : State (Status freshJob) = TriggeredState) by reflexivity.
  assert (Hcreate : createResult (reconciler brokenApply) freshWorld freshJob =
                    inr (key1, crds)) by reflexivity.
  destruct (pending_committed_before_apply (reconciler brokenApply) freshWorld freshJob
              key1 crds Hreach Hst Hcreate) as (_ & Hcommitted).
  destruct (Hcommitted eq_refl) as (_ & Hstored & _ & _ & Hfail & _).
  split; [exact Hreach|]. split; [exact Hst|]. split; [exact Hcreate|].
  split; [apply Hfail; reflexivity|exact Hstored].
Defined.

Lemma run_kind_follows_pulls_witness :
  reaches prWorld prJob [] /\
  State (Status prJob) = TriggeredState /\
  exists param,
    createCalls (trace (Reconcile (reconciler engine) (requestFor prJob) prWorld).2) =
      [param] /\
    pcPipelineKind param = PullRequestPipeline.
Proof.
  assert (Hreach : reaches prWorld prJob []) by (repeat split; reflexivity).
  assert (Hst : State (Status prJob) = TriggeredState) by reflexivity.
  destruct (run_kind_follows_pulls (reconciler engine) prWorld prJob Hreach Hst)
    as (param & Hcalls & Hpr & _).
  split; [exact Hreach|]. split; [exact Hst|].
  exists param. split; [exact Hcalls|]. apply Hpr. cbn. lia.
Defined.

Lemma many_activities_only_logged_witness :
  reaches anomalyWorld startedJob [activity3; activity4] /\
  (1 < length [activity3; activity4])%nat /\
  (Reconcile (reconciler engine) (requestFor startedJob) anomalyWorld).1 = Returned None /\
  jobs (Reconcile (reconciler engine) (requestFor startedJob) anomalyWorld).2 =
    jobs anomalyWorld.
Proof.
  assert (Hreach : reaches anomalyWorld startedJob [activity3; activity4])
    by (repeat split; reflexivity).
  assert (Hlen : (1 < length [activity3; activity4])%nat) by (cbn; lia).
  destruct (many_activities_only_logged (reconciler engine) anomalyWorld startedJob
              [activity3; activity4] Hreach Hlen) as (Hnil & _ & Hjobs & _).
  split; [exact Hreach|]. split; [exact Hlen|]. split; [exact Hnil|exact Hjobs].
Defined.

Lemma activity_mirrored_onto_job_witness :
  reaches mirrorWorld startedJob [activity3] /\
  (Reconcile (reconciler engine) (requestFor startedJob) mirrorWorld).1 = Returned None /\
  exists j labels record,
    stored (Reconcile (reconciler engine) (requestFor startedJob) mirrorWorld).2 startedJob =
      Some j /\
    Labels j = Some labels /\
    labels !! "lighthouse.jenkins-x.io/buildNum" = Some "3" /\
    Activity (Status j) = Some record /\
    arOwner record = "acme" /\ arRepo record = "widgets" /\ arBranch record = "main" /\
    arBuildIdentifier record = "3".
Proof.
  assert (Hreach : reaches mirrorWorld startedJob [activity3])
    by (repeat split; reflexivity).
  assert (Hnil : (Reconcile (reconciler engine) (requestFor startedJob) mirrorWorld).1 =
                 Returned None) by (vm_compute; reflexivity).
  destruct (activity_mirrored_onto_job (reconciler engine) mirrorWorld startedJob
              activity3 Hreach Hnil)
    as (j & labels & record & Hj & Hl & Hbuild & Ha & Ho & Hr & Hb & Hi & _).
  split; [exact Hreach|]. split; [exact Hnil|].
  exists j, labels, record. repeat split; assumption.
Defined.

Lemma report_url_assigned_iff_witness :
  reaches mirrorWorld startedJob [activity3] /\
  (Reconcile (reconciler engine) (requestFor startedJob) mirrorWorld).1 = Returned None /\
  exists j,
    stored (Reconcile (reconciler engine) (requestFor startedJob) mirrorWorld).2 startedJob =
      Some j /\
    ReportURL (Status j) =
      "https://example.com/teams/some-team/projects/acme/widgets/main/3".
Proof.
  assert (Hreach : reaches mirrorWorld startedJob [activity3])
    by (repeat split; reflexivity).
  assert (Hnil : (Reconcile (reconciler engine) (requestFor startedJob) mirrorWorld).1 =
                 Returned None) by (vm_compute; reflexivity).
  destruct (report_url_assigned_iff (reconciler engine) mirrorWorld startedJob
              activity3 Hreach Hnil) as (j & Hj & Hassigned & _).
  split; [exact Hreach|]. split; [exact Hnil|].
  exists j. split; [exact Hj|].
  apply Hassigned.
  - vm_compute. discriminate.
  - vm_compute. reflexivity.
  - right. vm_compute. reflexivity.
Defined.

Lemma label_assignment_needs_labels_witness :
  reaches unlabelledWorld unlabelledJob [activity3] /\
  Labels unlabelledJob = None /\
  Reconcile (reconciler engine) (requestFor unlabelledJob) unlabelledWorld =
    (Panicked "assignment to entry in nil map", entered unlabelledWorld).
Proof.
  assert (Hreach : reaches unlabelledWorld unlabelledJob [activity3])
    by (repeat split; reflexivity).
  destruct (label_assignment_needs_labels (reconciler engine) unlabelledWorld
              unlabelledJob activity3 Hreach) as (Hpanic & _).
  split; [exact Hreach|]. split; [reflexivity|]. apply Hpanic. reflexivity.
Defined.

Lemma pull_ref_descriptor_witness :
  reaches prWorld prJob [] /\
  State (Status prJob) = TriggeredState /\
  (forall pr, PullRefString pr = specPullRefString pr) /\
  (forall pr p, In p (pullRequests pr) ->
     Contains (PullRefString pr) (ID p ++ ":" ++ MergeSHA p) = true) /\
  triggerPullRefs (Spec prJob) = "5:abc" /\
  Contains (triggerPullRefs (Spec prJob)) "5:abc" = true /\
  triggerPullRefs (Spec freshJob) = "main:".
Proof.
  assert (Hreach : reaches prWorld prJob []) by (repeat split; reflexivity).
  assert (Hst : State (Status prJob) = TriggeredState) by reflexivity.
  assert (Hrender : forall pr, PullRefString pr = specPullRefString pr)
    by (intros pr; reflexivity).
  destruct (pull_ref_descriptor (reconciler engine) prWorld prJob Hreach Hst)
    as (_ & _ & _ & Hjoined & Hcontains).
  split; [exact Hreach|]. split; [exact Hst|]. split; [exact Hrender|].
  split; [exact specPullRefString_shows|].
  split; [apply (Hjoined Hrender); discriminate|].
  split; [apply (Hcontains specPullRefString_shows); reflexivity|reflexivity].
Defined.



End Examples.

(** ** Every way out of [Reconcile] *)

Section Exits.
Context `{X : Externals}.
Variable r : LighthouseJobReconciler.

(** X1: a request for a job that is not there (the read answers not-found)
    is dropped: the nil error is returned and the run only logs. *)
Theorem missing_job_is_dropped req w :
  getErr (faults w) = Some ErrNotFound \/
  (getErr (faults w) = None /\ jobs w !! storeKey req = None) ->
  Reconcile r req w =
  (Returned None,
   withTrace w (Logged WarningLevel "Unable to get LighthouseJob: %s" [] ::
                entryLog :: trace w)).
Proof.
  intros [Hget|[Hget Hjob]];
    unfold Reconcile, reconcile, clientGet; step_M; rewrite Hget; [reflexivity|].
  rewrite Hjob. reflexivity.
Qed.

(** X2: an error of the read of the job other than not-found, and an error
    of the listing of its activities, are returned as they are, and the run
    only logs. *)
Theorem read_errors_are_returned req w :
  (forall err,
     getErr (faults w) = Some err -> err <> ErrNotFound ->
     Reconcile r req w =
     (Returned (Some err),
      withTrace w (Logged WarningLevel "Unable to get LighthouseJob: %s" [] ::
                   entryLog :: trace w))) /\
  (forall job err,
     getErr (faults w) = None -> jobs w !! storeKey req = Some job ->
     otherAgent job = false -> listErr (faults w) = Some err ->
     Reconcile r req w =
     (Returned (Some err),
      withTrace w (Logged ErrorLevel "Failed list pipeline runs: %s" [] ::
                   entryLog :: trace w))).
Proof.
  split.
  - intros err Hget Hnot. unfold Reconcile, reconcile, clientGet. step_M.
    rewrite Hget. destruct err; try reflexivity. contradiction.
  - intros job err Hget Hjob Hagent Hlist.
    unfold Reconcile, reconcile, clientGet, clientList. step_M.
    rewrite Hget, Hjob, Hagent. step_M. rewrite Hlist. reflexivity.
Qed.

(** X3: a job of another agent is left alone: the nil error is returned
    before the activities are listed, so even a failing list is not
    noticed, and nothing but the entry line is logged. *)
Theorem other_agents_are_ignored req w job :
  getErr (faults w) = None ->
  jobs w !! storeKey req = Some job ->
  otherAgent job = true ->
  Reconcile r req w = (Returned None, entered w).
Proof.
  intros Hget Hjob Hagent. unfold Reconcile, reconcile, clientGet. step_M.
  rewrite Hget, Hjob, Hagent. reflexivity.
Qed.

(** X4: a job without correlated activities that is not in the triggered
    state is left as it is: the run returns the nil error and only logs its
    entry line. *)
Theorem waiting_job_is_left_alone w job :
  reaches w job [] ->
  State (Status job) <> TriggeredState ->
  Reconcile r (requestFor job) w = (Returned None, entered w).
Proof.
  intros Hreach Hst. rewrite (Reconcile_reaches r w job [] Hreach).
  unfold onActivities.
  destruct (PipelineState_eqb _ _) eqn:Heq; [|reflexivity].
  apply PipelineState_eqb_eq in Heq. contradiction.
Qed.

(** X5: how a trigger fails.  An error of create is returned wrapped and
    neither a write nor apply follows; an error of the status write is
    returned as it is, after create and the write attempt, and apply does
    not follow. *)
Theorem trigger_failures w job :
  reaches w job [] ->
  State (Status job) = TriggeredState ->
  (forall err,
     createResult r w job = inl err ->
     Reconcile r (requestFor job) w =
     (Returned (Some (ErrWrap err "unable to create Tekton CRDs")),
      withTrace w (CreateCalled (createParam w (Spec job)) ::
                   triggerLog (Spec job) :: entryLog :: trace w))) /\
  (forall key crds err,
     createResult r w job = inr (key, crds) ->
     statusUpdateErr (faults w) = Some err ->
     Reconcile r (requestFor job) w =
     (Returned (Some err),
      withTrace w (statusFailedLog ::
                   StatusUpdateCalled (pendingJob job key (clock w)) ::
                   CreateCalled (createParam w (Spec job)) ::
                   triggerLog (Spec job) :: entryLog :: trace w))).
Proof.
  intros Hreach Hst. rewrite (Reconcile_trigger r w job Hreach Hst).
  unfold triggerOutcome.
  change (createResult r (entered w) job) with (createResult r w job).
  split.
  - intros err ->. reflexivity.
  - intros key crds err -> Hstatus. cbn [faults entered withTrace].
    rewrite Hstatus. reflexivity.
Qed.

(** X6: when the write of the build label is refused, the run returns that
    error as it is; the status write is not attempted and the stored jobs
    are unchanged. *)
Theorem label_write_failure w job pa labels err :
  reaches w job [pa] ->
  Labels job = Some labels ->
  updateErr (faults w) = Some err ->
  Reconcile r (requestFor job) w =
  (Returned (Some err),
   withTrace w (updateFailedLog :: UpdateCalled (labelledJob job labels pa) ::
                entryLog :: trace w)).
Proof.
  intros Hreach Hlabels Hupdate. rewrite (Reconcile_mirror r w job pa Hreach).
  unfold mirrorOutcome. rewrite Hlabels. cbn [faults entered withTrace].
  rewrite Hupdate. reflexivity.
Qed.

(** X7: the two writes of the one-activity branch are not atomic.  When the
    label write is accepted and the status write is refused, the run
    returns the error of the status write, and the stored job has the new
    build label with the status it had. *)
Theorem label_kept_when_status_write_fails w job pa labels err :
  reaches w job [pa] ->
  Labels job = Some labels ->
  updateErr (faults w) = None ->
  statusUpdateErr (faults w) = Some err ->
  (Reconcile r (requestFor job) w).1 = Returned (Some err) /\
  stored (Reconcile r (requestFor job) w).2 job = Some (labelledJob job labels pa) /\
  Labels (labelledJob job labels pa) =
    Some (<[BuildNumLabel := Build (paSpec pa)]> labels) /\
  Status (labelledJob job labels pa) = Status job.
Proof.
  intros Hreach Hlabels Hupdate Hstatus. rewrite (Reconcile_mirror r w job pa Hreach).
  unfold mirrorOutcome. rewrite Hlabels. cbn [faults entered withTrace withJobs].
  rewrite Hupdate, Hstatus. cbn [fst snd].
  split; [reflexivity|]. split; [|split; reflexivity].
  unfold stored. cbn [jobs withTrace withJobs]. apply lookup_insert_eq.
Qed.

End Exits.

(** ** What a reconciliation leaves as it is *)

Section Frame.
Context `{X : Externals}.
Variable r : LighthouseJobReconciler.

Lemma applyCalls_app evs tr :
  applyCalls (evs ++ tr)%list = (applyCalls evs ++ applyCalls tr)%list.
Proof.
  induction evs as [|[] evs IH]; cbn [applyCalls app]; rewrite ?IH; reflexivity.
Qed.

Lemma mirrorActivity_engine_untouched templateText job pa w :
  createCalls (trace (mirrorActivity r templateText job pa w).2) = createCalls (trace w) /\
  applyCalls (trace (mirrorActivity r templateText job pa w).2) = applyCalls (trace w) /\
  activities (mirrorActivity r templateText job pa w).2 = activities w.
Proof.
  unfold mirrorActivity. run_M.
  all: repeat split; reflexivity.
Qed.

Lemma triggerPipeline_engine_calls job w :
  exists cs aps,
    createCalls (trace (triggerPipeline r job w).2) = (cs ++ createCalls (trace w))%list /\
    applyCalls (trace (triggerPipeline r job w).2) = (aps ++ applyCalls (trace w))%list /\
    (length aps <= length cs <= 1)%nat.
Proof.
  unfold triggerPipeline. cbv zeta. run_M.
  all: try (eexists [_], [_]; repeat split; cbn; lia).
  all: eexists [_], []; repeat split; cbn; lia.
Qed.

(** X12: the engine is called only at the trigger point.  Unless the
    requested job is stored in the triggered state with no correlated
    activity, a reconciliation calls neither create nor apply and leaves
    the activities as they are. *)
Theorem engine_called_only_at_trigger_point req w :
  (forall job,
     jobs w !! storeKey req = Some job ->
     State (Status job) = TriggeredState ->
     matchingFields (reqNamespace req) (ActivityName (Status job)) (activities w) <> []) ->
  createCalls (trace (Reconcile r req w).2) = createCalls (trace w) /\
  applyCalls (trace (Reconcile r req w).2) = applyCalls (trace w) /\
  activities (Reconcile r req w).2 = activities w.
Proof.
  intros Hnot.
  unfold Reconcile, reconcile, clientGet, clientList. step_M.
  destruct (getErr (faults w)); step_M; [repeat split; reflexivity|].
  destruct (jobs w !! storeKey req) as [job|] eqn:Hjob; step_M;
    [|repeat split; reflexivity].
  destruct (otherAgent job); step_M; [repeat split; reflexivity|].
  destruct (listErr (faults w)); step_M; [repeat split; reflexivity|].
  specialize (Hnot job eq_refl).
  unfold onActivities.
  destruct (matchingFields _ _ _) as [|pa [|pa' rest]].
  - destruct (PipelineState_eqb _ _) eqn:Heq.
    + apply PipelineState_eqb_eq in Heq. contradiction (Hnot Heq). reflexivity.
    + step_M. repeat split; reflexivity.
  - set (w1 := withTrace w _).
    pose proof (mirrorActivity_engine_untouched defaultTargetURLTemplate job pa w1)
      as (Hc & Ha & Hacts).
    destruct (mirrorActivity r defaultTargetURLTemplate job pa w1) as [[a|x] w2];
      cbn [fst snd] in *; (split; [exact Hc|split; [exact Ha|exact Hacts]]).
  - step_M. repeat split; reflexivity.
Qed.

(** X13: one reconciliation calls create at most once and apply at most
    once, and apply only when it has called create. *)
Theorem at_most_one_create_and_apply req w :
  exists cs aps,
    createCalls (trace (Reconcile r req w).2) = (cs ++ createCalls (trace w))%list /\
    applyCalls (trace (Reconcile r req w).2) = (aps ++ applyCalls (trace w))%list /\
    (length aps <= length cs <= 1)%nat.
Proof.
  assert (Hnone : forall w', createCalls (trace w') = createCalls (trace w) ->
            applyCalls (trace w') = applyCalls (trace w) ->
            exists cs aps,
              createCalls (trace w') = (cs ++ createCalls (trace w))%list /\
              applyCalls (trace w') = (aps ++ applyCalls (trace w))%list /\
              (length aps <= length cs <= 1)%nat).
  { intros w' Hc Ha. exists [], []. cbn. repeat split; try assumption; lia. }
  unfold Reconcile, reconcile, clientGet, clientList. step_M.
  destruct (getErr (faults w)); step_M; [apply Hnone; reflexivity|].
  destruct (jobs w !! storeKey req) as [job|] eqn:Hjob; step_M;
    [|apply Hnone; reflexivity].
  destruct (otherAgent job); step_M; [apply Hnone; reflexivity|].
  destruct (listErr (faults w)); step_M; [apply Hnone; reflexivity|].
  unfold onActivities.
  destruct (matchingFields _ _ _) as [|pa [|pa' rest]].
  - destruct (PipelineState_eqb _ _) eqn:Heq.
    + set (w1 := withTrace w _).
      destruct (triggerPipeline_engine_calls job w1) as (cs & aps & Hc & Ha & Hlen).
      exists cs, aps.
      destruct (triggerPipeline r job w1) as [[a|x] w2]; cbn [fst snd] in *;
        (split; [exact Hc|split; [exact Ha|exact Hlen]]).
    + step_M. apply Hnone; reflexivity.
  - set (w1 := withTrace w _).
    pose proof (mirrorActivity_engine_untouched defaultTargetURLTemplate job pa w1)
      as (Hc & Ha & _).
    destruct (mirrorActivity r defaultTargetURLTemplate job pa w1) as [[a|x] w2];
      cbn [fst snd] in *; apply Hnone; assumption.
  - step_M. apply Hnone; reflexivity.
Qed.

End Frame.

(** ** What a reconciliation writes *)

Section Store.
Context `{X : Externals}.
Variable r : LighthouseJobReconciler.

(** A property of the stored jobs that the two writes of a job keep is
    kept by the branches that make them. *)
Section Writes.
Variable Q : gmap (string * string) LighthouseJob -> Prop.
Variable job : LighthouseJob.
Hypothesis Q_status : forall js st old,
  Q js -> js !! jobKey job = Some old -> Q (<[jobKey job := setStatus old st]> js).
Hypothesis Q_labels : forall js ls old,
  Q js -> js !! jobKey job = Some old -> Q (<[jobKey job := setLabels job ls]> js).

Lemma clientStatusUpdate_keeps j w :
  jobKey j = jobKey job -> Q (jobs w) -> Q (jobs (clientStatusUpdate j w).2).
Proof.
  intros Hkey HQ. unfold clientStatusUpdate. rewrite Hkey.
  destruct (statusUpdateErr (faults w)); [exact HQ|].
  destruct (jobs w !! jobKey job) eqn:Hjob; [|exact HQ].
  cbn [snd jobs withJobs withTrace]. exact (Q_status _ _ _ HQ Hjob).
Qed.

Lemma triggerPipeline_keeps w :
  Q (jobs w) -> Q (jobs (triggerPipeline r job w).2).
Proof.
  intros HQ. unfold triggerPipeline. cbv zeta.
  unfold triggerServiceAccount, mpCreate, mpApply, bind, pure, returnErr, emit, logf,
    Getenv, Now.
  cbn [fst snd jobs withTrace].
  destruct (Create _ _ _) as [err|[key crds]]; [exact HQ|].
  match goal with |- context [clientStatusUpdate ?j ?w0] =>
    pose proof (clientStatusUpdate_keeps j w0 eq_refl HQ) as HQ';
    destruct (clientStatusUpdate j w0) as [[[e|]|x] w1] end;
    cbn [fst snd jobs withTrace] in *; try exact HQ'.
  destruct (Apply _ _ _ _) as [[e|] acts]; exact HQ'.
Qed.

Lemma mirrorActivity_keeps_jobs templateText pa w :
  Q (jobs w) -> Q (jobs (mirrorActivity r templateText job pa w).2).
Proof.
  intros HQ.
  unfold mirrorActivity, assignLabel, bind, pure, panic, returnErr, logf, emit.
  destruct (Labels job) as [labels|]; [|exact HQ].
  assert (HQ1 : forall ls w0, Q (jobs w0) ->
            Q (jobs (clientUpdate (setLabels job ls) w0).2)).
  { intros ls w0 HQ0. unfold clientUpdate.
    destruct (updateErr (faults w0)); [exact HQ0|].
    destruct (jobs w0 !! jobKey (setLabels job ls)) eqn:Hjob; [|exact HQ0].
    cbn [snd jobs withJobs withTrace]. exact (Q_labels _ _ _ HQ0 Hjob). }
  match goal with |- context [clientUpdate (setLabels job ?ls) ?w0] =>
    pose proof (HQ1 ls w0 HQ) as HQ';
    destruct (clientUpdate (setLabels job ls) w0) as [[[e|]|x] w1] end;
    cbn [fst snd jobs withTrace] in *; try exact HQ'.
  unfold ConvertPipelineActivity, getReportURLBase, getReportURLTeam, Getenv.
  destruct (negb _).
  - rewrite createReportTargetURL_run. cbn [fst snd].
    set (w2 := withTrace w1 _).
    destruct (hasHTTPScheme _);
      match goal with |- context [clientStatusUpdate ?j ?w0] =>
        pose proof (clientStatusUpdate_keeps j w0 eq_refl HQ') as HQ'';
        destruct (clientStatusUpdate j w0) as [[[e|]|x] w3] end;
      cbn [fst snd jobs withTrace] in *; exact HQ''.
  - match goal with |- context [clientStatusUpdate ?j ?w0] =>
      pose proof (clientStatusUpdate_keeps j w0 eq_refl HQ') as HQ'';
      destruct (clientStatusUpdate j w0) as [[[e|]|x] w3] end;
      cbn [fst snd jobs withTrace] in *; exact HQ''.
Qed.

End Writes.

Lemma Reconcile_keeps_jobs (Q : gmap (string * string) LighthouseJob -> Prop) req w :
  Q (jobs w) ->
  (forall job, jobs w !! storeKey req = Some job ->
     (forall js st old,
        Q js -> js !! jobKey job = Some old -> Q (<[jobKey job := setStatus old st]> js)) /\
     (forall js ls old,
        Q js -> js !! jobKey job = Some old -> Q (<[jobKey job := setLabels job ls]> js))) ->
  Q (jobs (Reconcile r req w).2).
Proof.
  intros HQ Hwrites.
  unfold Reconcile, reconcile, clientGet, clientList. step_M.
  destruct (getErr (faults w)); step_M; [exact HQ|].
  destruct (jobs w !! storeKey req) as [job|] eqn:Hjob; step_M; [|exact HQ].
  destruct (otherAgent job); step_M; [exact HQ|].
  destruct (listErr (faults w)); step_M; [exact HQ|].
  destruct (Hwrites job eq_refl) as [Hstatus Hlabels].
  unfold onActivities.
  destruct (matchingFields _ _ _) as [|pa [|pa' rest]].
  - destruct (PipelineState_eqb _ _); [|exact HQ].
    set (w1 := withTrace w _).
    pose proof (triggerPipeline_keeps Q job Hstatus w1 HQ) as HQ'.
    destruct (triggerPipeline r job w1) as [[a|x] w2]; exact HQ'.
  - set (w1 := withTrace w _).
    pose proof (mirrorActivity_keeps_jobs Q job Hstatus Hlabels
                  defaultTargetURLTemplate pa w1 HQ) as HQ'.
    destruct (mirrorActivity r defaultTargetURLTemplate job pa w1) as [[a|x] w2];
      exact HQ'.
  - exact HQ.
Qed.

Lemma dom_insert_present (js : gmap (string * string) LighthouseJob) key job old :
  js !! key = Some old -> dom (<[key := job]> js) = dom js.
Proof.
  intros Hold. rewrite dom_insert_L.
  assert (Hin : key ∈ dom js) by (apply elem_of_dom; exists old; exact Hold).
  apply leibniz_equiv. intros k. rewrite elem_of_union, elem_of_singleton.
  split; [intros [->|Hk]; assumption|intros Hk; right; exact Hk].
Qed.

(** X10: a reconciliation neither creates nor deletes jobs: whatever the
    request and the state of the server, the same jobs are stored after it
    as before. *)
Theorem jobs_are_never_added_or_deleted req w :
  dom (jobs (Reconcile r req w).2) = dom (jobs w).
Proof.
  apply (Reconcile_keeps_jobs (fun js => dom js = dom (jobs w)) req w).
  - reflexivity.
  - intros job Hjob. split.
    + intros js st old Hdom Hold. rewrite <- Hdom. exact (dom_insert_present _ _ _ _ Hold).
    + intros js ls old Hdom Hold. rewrite <- Hdom. exact (dom_insert_present _ _ _ _ Hold).
Qed.

(** X11: in a store where every job is filed under its own namespace and
    name, a reconciliation writes to the requested job only: every other
    job is untouched, the requested job keeps its spec, and the store stays
    filed that way. *)
Theorem only_the_requested_job_is_written req w :
  wellKeyed w ->
  wellKeyed (Reconcile r req w).2 /\
  (forall key, key <> storeKey req ->
     jobs (Reconcile r req w).2 !! key = jobs w !! key) /\
  (forall job', jobs (Reconcile r req w).2 !! storeKey req = Some job' ->
     exists job, jobs w !! storeKey req = Some job /\ Spec job' = Spec job).
Proof.
  intros Hkeyed.
  pose (Q := fun js : gmap (string * string) LighthouseJob =>
     (forall key job, js !! key = Some job -> jobKey job = key) /\
     (forall key, key <> storeKey req -> js !! key = jobs w !! key) /\
     (forall job', js !! storeKey req = Some job' ->
        exists job, jobs w !! storeKey req = Some job /\ Spec job' = Spec job)).
  apply (Reconcile_keeps_jobs Q req w).
  - split; [exact Hkeyed|]. split; [reflexivity|]. intros job' Hjob'. eauto.
  - intros job Hjob. pose proof (Hkeyed _ _ Hjob) as Hkey. rewrite Hkey.
    split.
    + intros js st old (Hk & Hothers & Hspec) Hold.
      split; [|split].
      * intros key j. rewrite lookup_insert. case_decide.
        -- intros Hj. simplify_eq. exact (Hk _ _ Hold).
        -- apply Hk.
      * intros key Hne. rewrite lookup_insert_ne by congruence. apply Hothers, Hne.
      * intros job'. rewrite lookup_insert_eq. intros Hj'. simplify_eq.
        exact (Hspec _ Hold).
    + intros js ls old (Hk & Hothers & Hspec) Hold.
      split; [|split].
      * intros key j. rewrite lookup_insert. case_decide.
        -- intros Hj. simplify_eq. exact Hkey.
        -- apply Hk.
      * intros key Hne. rewrite lookup_insert_ne by congruence. apply Hothers, Hne.
      * intros job'. rewrite lookup_insert_eq. intros Hj'. simplify_eq.
        exists job. split; [exact Hjob|reflexivity].
Qed.

(** X8: mirroring is idempotent.  After a reconciliation that found one
    activity and returned the nil error, a second reconciliation of the same
    job in the world the first one left returns the nil error again and
    leaves every stored job as it is. *)
Theorem mirroring_twice_changes_nothing w job pa :
  reaches w job [pa] ->
  (Reconcile r (requestFor job) w).1 = Returned None ->
  (Reconcile r (requestFor job) (Reconcile r (requestFor job) w).2).1 = Returned None /\
  jobs (Reconcile r (requestFor job) (Reconcile r (requestFor job) w).2).2 =
  jobs (Reconcile r (requestFor job) w).2.
Proof.
  intros Hreach Hnil.
  rewrite (Reconcile_mirror r w job pa Hreach) in *.
  destruct (mirrorOutcome_returns_nil r _ _ _ _ Hnil) as (labels & Hl & Hu & Hs & _).
  pose proof Hreach as (Hget & Hjob & Hagent & Hlist & Hitems).
  clear Hnil. unfold mirrorOutcome in *. rewrite Hl in *.
  cbn [faults entered withTrace withJobs] in *. rewrite Hu, Hs in *.
  set (job3 := mirroredJob r defaultTargetURLTemplate (entered w) job labels pa).
  set (w1 := withJobs _ _). cbn [snd].
  assert (Hlabels3 : Labels job3 = Some (<[BuildNumLabel := Build (paSpec pa)]> labels)).
  { unfold job3, mirroredJob. destruct (acceptedURL _ _ _ _); reflexivity. }
  assert (Hkey3 : jobKey job3 = jobKey job).
  { unfold job3, mirroredJob. destruct (acceptedURL _ _ _ _); reflexivity. }
  assert (Hreq3 : requestFor job3 = requestFor job).
  { unfold job3, mirroredJob. destruct (acceptedURL _ _ _ _); reflexivity. }
  assert (Hreach1 : reaches w1 job3 [pa]).
  { unfold reaches, w1. cbn [faults jobs activities withJobs withTrace entered].
    split; [exact Hget|]. split; [rewrite Hkey3; apply lookup_insert_eq|].
    split; [|split; [exact Hlist|]];
      unfold job3, mirroredJob; destruct (acceptedURL _ _ _ _);
      first [exact Hagent|exact Hitems]. }
  rewrite <- Hreq3.
  rewrite (Reconcile_mirror r w1 job3 pa Hreach1).
  unfold mirrorOutcome. rewrite Hlabels3.
  cbn [faults entered withTrace withJobs w1]. rewrite Hu, Hs. cbn [fst snd].
  split; [reflexivity|].
  cbn [jobs withTrace withJobs].
  assert (Hsame : mirroredJob r defaultTargetURLTemplate (entered w1) job3
                    (<[BuildNumLabel := Build (paSpec pa)]> labels) pa = job3).
  { unfold job3, mirroredJob, labelledJob.
    change (acceptedURL r defaultTargetURLTemplate (entered w1) pa)
      with (acceptedURL r defaultTargetURLTemplate (entered w) pa).
    rewrite insert_insert_eq.
    destruct (acceptedURL _ _ _ _); reflexivity. }
  rewrite Hsame, Hkey3. unfold w1. cbn [jobs entered withTrace withJobs].
  rewrite !insert_insert_eq. reflexivity.
Qed.

(** X9: mirroring an activity never moves a job through its lifecycle: the
    stored job keeps its state, its ActivityName, its start time and its
    spec. *)
Theorem mirroring_keeps_the_lifecycle w job pa :
  reaches w job [pa] ->
  forall job', stored (Reconcile r (requestFor job) w).2 job = Some job' ->
  State (Status job') = State (Status job) /\
  ActivityName (Status job') = ActivityName (Status job) /\
  StartTime (Status job') = StartTime (Status job) /\
  Spec job' = Spec job.
Proof.
  intros Hreach job'. rewrite (Reconcile_mirror r w job pa Hreach).
  pose proof Hreach as (_ & Hjob & _).
  unfold mirrorOutcome, stored, entered.
  destruct (Labels job) as [labels|]; cbn [snd jobs withTrace];
    [|rewrite Hjob; intros [= <-]; repeat split].
  cbn [faults entered withTrace withJobs].
  destruct (updateErr (faults w)); cbn [snd jobs withTrace];
    [rewrite Hjob; intros [= <-]; repeat split|].
  destruct (statusUpdateErr (faults w)); cbn [snd jobs withTrace withJobs];
    rewrite lookup_insert_eq; intros [= <-]; unfold mirroredJob;
    try destruct (acceptedURL _ _ _ _); repeat split.
Qed.

End Store.

(** ** The parameters of a trigger *)

Section TriggerParams.
Context `{X : Externals}.

(** X14: the pull ref passed to create carries the clone URL, the base
    branch and revision of the job and one pull request per pull of the
    job, in order; and the run kind agrees with it: pull-request exactly
    when the pull ref has pull requests, release exactly when it has none. *)
Theorem create_param_is_consistent w spec :
  let pullRef := pcPullRef (createParam w spec) in
  let kind := pcPipelineKind (createParam w spec) in
  sourceURL pullRef = CloneURI (SpecRefs spec) /\
  baseBranch pullRef = BaseRef (SpecRefs spec) /\
  baseSHA pullRef = BaseSHA (SpecRefs spec) /\
  pullRequests pullRef =
    map (fun pull => {| ID := Itoa (Number pull); MergeSHA := SHA pull |})
        (Pulls (SpecRefs spec)) /\
  (kind = PullRequestPipeline <-> pullRequests pullRef <> []) /\
  (kind = ReleasePipeline <-> pullRequests pullRef = []).
Proof.
  unfold createParam, getPullRefs, triggerKind. cbn [pcPullRef pcPipelineKind].
  destruct (Pulls (SpecRefs spec)) as [|pull pulls]; cbn [length Nat.ltb Nat.leb map].
  - repeat split; try reflexivity; try discriminate.
    intros H. exfalso. apply H. reflexivity.
  - repeat split; try reflexivity; try discriminate.
Qed.

(** X15: the trigger never hands out an empty name: the service account
    passed to create is the one of the environment, or tekton-bot when that
    is unset or empty, and the branch and the pull-ref descriptor of the
    log line are never empty, whatever the job's branch and the rendering
    of its pull ref are. *)
Theorem trigger_defaults_are_never_empty w spec :
  pcServiceAccount (createParam w spec) <> "" /\
  (forall sa, environ w !! "JX_SERVICE_ACCOUNT" = Some sa -> sa <> "" ->
     pcServiceAccount (createParam w spec) = sa) /\
  (environ w !! "JX_SERVICE_ACCOUNT" = None \/
   environ w !! "JX_SERVICE_ACCOUNT" = Some "" ->
     pcServiceAccount (createParam w spec) = "tekton-bot") /\
  triggerBranch spec <> "" /\
  (GetBranch spec = "" -> triggerBranch spec = "master") /\
  triggerPullRefs spec <> "".
Proof.
  assert (Hbranch : triggerBranch spec <> "").
  { unfold triggerBranch. destruct (String.eqb_spec (GetBranch spec) ""); [discriminate|].
    assumption. }
  unfold createParam. cbn [pcServiceAccount].
  split; [|split; [|split; [|split; [exact Hbranch|split]]]].
  - destruct (String.eqb_spec (default "" (environ w !! "JX_SERVICE_ACCOUNT")) "");
      [discriminate|assumption].
  - intros sa -> Hsa. simpl. rewrite (eqb_empty_false sa Hsa). reflexivity.
  - intros [-> | ->]; reflexivity.
  - unfold triggerBranch. intros ->. reflexivity.
  - unfold triggerPullRefs. cbv zeta.
    match goal with |- context [String.eqb ?s ""] =>
      destruct (String.eqb_spec s ""); [|assumption] end.
    intros Hempty. apply append_empty_inv in Hempty. contradiction.
Qed.

Lemma Itoa_inj n m : Itoa n = Itoa m -> n = m.
Proof.
  unfold Itoa. intros H.
  assert (Hok : forall z, Z.to_int z <> Decimal.Pos Decimal.Nil /\
                          Z.to_int z <> Decimal.Neg Decimal.Nil).
  { intros [|p|p]; cbn; split; try discriminate;
      intros [= Hp]; exact (DecimalPos.Unsigned.to_uint_nonnil p Hp). }
  assert (Hint : Some (Z.to_int n) = Some (Z.to_int m)).
  { rewrite <- (NilZero.isi (Z.to_int n)) by apply Hok.
    rewrite <- (NilZero.isi (Z.to_int m)) by apply Hok.
    rewrite H. reflexivity. }
  injection Hint as Hint.
  rewrite <- (DecimalZ.of_to n), <- (DecimalZ.of_to m), Hint. reflexivity.
Qed.

(** X16: the identifiers of the pull requests passed to the engine
    determine the pull numbers of the job: two jobs whose pull refs list the
    same identifiers have the same pull numbers, in the same order. *)
Theorem pull_request_ids_are_faithful url spec url' spec' :
  map ID (pullRequests (getPullRefs url spec)) =
  map ID (pullRequests (getPullRefs url' spec')) ->
  map Number (Pulls (SpecRefs spec)) = map Number (Pulls (SpecRefs spec')).
Proof.
  assert (Hids : forall u s,
            map ID (pullRequests (getPullRefs u s)) =
            map (fun pull => Itoa (Number pull)) (Pulls (SpecRefs s))).
  { intros u s. unfold getPullRefs.
    destruct (Pulls (SpecRefs s)); cbn [length Nat.ltb Nat.leb]; [reflexivity|].
    unfold NewPullRefWithPullRequest. cbn [pullRequests]. rewrite map_map. reflexivity. }
  rewrite !Hids.
  generalize (Pulls (SpecRefs spec)) (Pulls (SpecRefs spec')).
  induction l as [|p l IH]; intros [|q l'] H; try discriminate H; [reflexivity|].
  cbn [map] in *. injection H as Hhead Htail.
  rewrite (Itoa_inj _ _ Hhead), (IH _ Htail). reflexivity.
Qed.

End TriggerParams.

(** ** The report URL *)

Section ReportURL.
Context `{X : Externals}.
Variable r : LighthouseJobReconciler.

Lemma TrimRight_slash_app s : TrimRight (s ++ "/") "/" = TrimRight s "/".
Proof.
  induction s as [|c s IH]; [reflexivity|].
  change (String c s ++ "/") with (String c (s ++ "/")).
  cbn [TrimRight]. rewrite IH. reflexivity.
Qed.

Lemma TrimRight_slash_end s : endsWith (TrimRight s "/") "/" = false.
Proof.
  induction s as [|c s IH]; [reflexivity|].
  cbn [TrimRight]. destruct (TrimRight s "/") as [|d kept] eqn:Hkept.
  - unfold inCutset. cbn [list_ascii_of_string existsb].
    destruct (Ascii.eqb c "/") eqn:Hc; cbn [orb endsWith]; [reflexivity|exact Hc].
  - exact IH.
Qed.

Lemma TrimRight_prefix s cutset : String.prefix (TrimRight s cutset) s = true.
Proof.
  induction s as [|c s IH]; [reflexivity|].
  cbn [TrimRight]. destruct (TrimRight s cutset) as [|d kept].
  - destruct (inCutset cutset c); [reflexivity|].
    cbn [String.prefix]. destruct (ascii_dec c c); [|contradiction].
    destruct s; reflexivity.
  - cbn [String.prefix] in *. destruct (ascii_dec c c); [exact IH|contradiction].
Qed.

(** X17: the base of a report URL is the configured base without its
    trailing slashes: it is a prefix of the configured base, it never ends
    with a slash, and configuring one more trailing slash changes none of
    the parameters. *)
Theorem trailing_slashes_are_trimmed urlBase urlTeam record :
  String.prefix (rpBaseURL (reportParams r urlBase urlTeam record)) urlBase = true /\
  endsWith (rpBaseURL (reportParams r urlBase urlTeam record)) "/" = false /\
  reportParams r (urlBase ++ "/") urlTeam record = reportParams r urlBase urlTeam record.
Proof.
  unfold reportParams. cbn [rpBaseURL].
  split; [apply TrimRight_prefix|]. split; [apply TrimRight_slash_end|].
  rewrite TrimRight_slash_app. reflexivity.
Qed.

(** X18: the report URL that a reconciliation stores.  When the one-activity
    branch returns the nil error with a configured base, and the URL made of
    the trimmed base, the team (the configured team, or the controller's
    namespace when none is configured) and the owner, repository, branch and
    build of the activity starts with http:// or https://, then that URL is
    the stored report URL. *)
Theorem stored_report_url w job pa :
  reaches w job [pa] ->
  (Reconcile r (requestFor job) w).1 = Returned None ->
  let base := default "" (environ w !! baseTargetURLEnvVar) in
  let configured := default "" (environ w !! targetURLTeamEnvVar) in
  let team := if String.eqb configured "" then namespace r else configured in
  let url := TrimRight base "/" ++ "/teams/" ++ team ++ "/projects/" ++
             GitOwner (paSpec pa) ++ "/" ++ GitRepository (paSpec pa) ++ "/" ++
             GitBranch (paSpec pa) ++ "/" ++ Build (paSpec pa) in
  base <> "" ->
  hasHTTPScheme url = true ->
  option_map (fun j => ReportURL (Status j))
    (stored (Reconcile r (requestFor job) w).2 job) = Some url.
Proof.
  intros Hreach Hnil base configured team url Hbase Hscheme.
  destruct (Reconcile_mirror_returns_nil r w job pa Hreach Hnil) as (labels & _ & ->).
  cbn [option_map]. f_equal.
  unfold mirroredJob, acceptedURL, renderedURL.
  rewrite default_template_renders.
  unfold reportParamsIn, reportParams, snapshotOf.
  cbn [rpBaseURL rpTeam rpOwner rpRepository rpBranch rpBuild
       arOwner arRepo arBranch arBuildIdentifier].
  fold base configured. fold team. fold url.
  rewrite (eqb_empty_false base Hbase), Hscheme. reflexivity.
Qed.

End ReportURL.

(** ** Which templates render *)

Section Rendering.
Context `{X : Externals}.

Lemma run_resolved steps data :
  (forall name, In (Template.Eval name) steps -> data !! name <> None) ->
  exists out, Template.run steps data = inr out.
Proof.
  induction steps as [|[text|field] rest IH]; intros Hall.
  - exists "". reflexivity.
  - destruct IH as (out & Hout); [intros name Hin; apply Hall; right; exact Hin|].
    cbn [Template.run]. rewrite Hout. eexists. reflexivity.
  - destruct IH as (out & Hout); [intros name Hin; apply Hall; right; exact Hin|].
    cbn [Template.run].
    destruct (data !! field) as [v|] eqn:Hfield.
    + rewrite Hout. eexists. reflexivity.
    + exfalso. apply (Hall field); [left; reflexivity|exact Hfield].
Qed.

Lemma resolves_names params name :
  resolves params name = true <-> In name reportParamNames.
Proof.
  unfold resolves, toObjectMap, reportParamNames. rewrite !lookup_insert.
  repeat (destruct (decide _) as [<-|?];
          [split; [intros _; cbn [In]; auto 10|reflexivity]|]).
  rewrite lookup_empty. split; [discriminate|].
  cbn [In]. intros Hin. repeat destruct Hin as [Hin|Hin]; congruence || contradiction.
Qed.

(** X19: which templates render.  A template of literal text, field
    actions and constant conditionals renders exactly when every field that
    its execution evaluates is one of BaseURL, Owner, Repository, Branch,
    Build, Context and Team, whatever the values of the parameters are;
    createReportTargetURL then returns the rendered text and logs nothing. *)
Theorem template_renders_iff_fields_known templateText nodes params :
  Template.Parse templateText = inr (Template.Tree nodes) ->
  ((forall name, In (Template.Eval name) (Template.walk nodes) ->
                 In name reportParamNames) <->
   exists url, renderTargetURL templateText params = inr url) /\
  (forall url w,
     renderTargetURL templateText params = inr url ->
     createReportTargetURL templateText params w = (Val url, w)).
Proof.
  intros Hparse. split; [split|].
  - intros Hknown. unfold renderTargetURL. rewrite Hparse.
    destruct (toObjectMap params) as [err|data] eqn:Hdata; [discriminate Hdata|].
    cbn [Template.Execute]. apply run_resolved. intros name Hin Hmissing.
    apply Hknown, (resolves_names params) in Hin.
    unfold resolves in Hin. rewrite Hdata, Hmissing in Hin. discriminate Hin.
  - intros (url & Hurl) name Hin. apply (resolves_names params).
    destruct (resolves params name) eqn:Hresolves; [reflexivity|]. exfalso.
    destruct (evaluated_unresolved_fails templateText nodes name params
                Hparse Hin Hresolves params) as (err & Herr).
    rewrite Herr in Hurl. discriminate Hurl.
  - intros url w Hurl. rewrite createReportTargetURL_run.
    unfold renderedURL. rewrite Hurl.
    unfold renderTargetURL in Hurl. unfold renderWarning.
    destruct (toObjectMap params) as [err|data]; [discriminate Hurl|].
    rewrite Hparse in *. rewrite Hurl. destruct w. reflexivity.
Qed.

End Rendering.

(** ** Event dispatch *)

Section Dispatching.
Context `{X : Externals}.

Lemma toRequests_run o w :
  toRequests o w =
  match listErr (faults w) with
  | Some _ => (Val [], withTrace w (failedListJobsLog :: trace w))
  | None =>
      (Val (map (fun job => {| reqNamespace := Namespace job; reqName := Name job |})
                (matchingJobs (paNamespace o) (ToValidName (paName o)) (jobs w))),
       withTrace w (foundJobsLog :: trace w))
  end.
Proof.
  unfold toRequests, clientListJobs, bind, pure, emit.
  destruct (listErr (faults w)); reflexivity.
Qed.

Lemma matchingJobs_In namespace value js job :
  In job (matchingJobs namespace value js) <->
  (exists key, js !! key = Some job) /\
  Namespace job = namespace /\
  ActivityName (Status job) = value /\
  value <> "".
Proof.
  unfold matchingJobs. rewrite filter_In, in_map_iff.
  rewrite andb_true_iff, String.eqb_eq.
  assert (Hindex : existsb (String.eqb value) (lighthouseJobIndex job) = true <->
                   ActivityName (Status job) = value /\ value <> "").
  { unfold lighthouseJobIndex.
    destruct (String.eqb_spec (ActivityName (Status job)) "") as [Hempty|Hfull];
      cbn [existsb].
    - split; [discriminate|]. intros [<- Hne]. contradiction.
    - rewrite orb_false_r, String.eqb_eq. split.
      + intros ->. split; [reflexivity|exact Hfull].
      + intros [<- _]. reflexivity. }
  rewrite Hindex. split.
  - intros [((key & j) & Hsnd & Hin) Hrest]. cbn [snd] in Hsnd. subst j.
    split; [|exact Hrest]. exists key.
    apply elem_of_map_to_list, list_elem_of_In. exact Hin.
  - intros [(key & Hkey) Hrest]. split; [|exact Hrest].
    exists (key, job). split; [reflexivity|].
    apply list_elem_of_In, elem_of_map_to_list. exact Hkey.
Qed.

(** X21: the requests that a change of an activity enqueues.  In a store
    filed by namespace and name, when the listing succeeds, a request is
    enqueued exactly for the stored jobs of the activity's namespace whose
    ActivityName is not empty and equals the normalised name of the
    activity; the stored jobs and the activities are left as they are.  When
    the listing fails nothing is enqueued. *)
Theorem activity_change_enqueues_its_jobs o w :
  (listErr (faults w) = None ->
   wellKeyed w ->
   exists requests,
     (toRequests o w).1 = Val requests /\
     forall req,
       In req requests <->
       exists job,
         jobs w !! storeKey req = Some job /\
         Namespace job = paNamespace o /\
         ActivityName (Status job) = ToValidName (paName o) /\
         ActivityName (Status job) <> "") /\
  (listErr (faults w) <> None -> (toRequests o w).1 = Val []) /\
  jobs (toRequests o w).2 = jobs w /\
  activities (toRequests o w).2 = activities w.
Proof.
  rewrite toRequests_run. split; [|split].
  - intros -> Hkeyed. eexists. split; [reflexivity|].
    intros req. rewrite in_map_iff. split.
    + intros (job & <- & Hin). apply matchingJobs_In in Hin.
      destruct Hin as ((key & Hkey) & Hns & Hname & Hne).
      exists job. pose proof (Hkeyed _ _ Hkey) as Hjk. unfold jobKey in Hjk.
      unfold storeKey. cbn [reqNamespace reqName]. rewrite Hjk.
      split; [exact Hkey|]. split; [exact Hns|]. split; [exact Hname|].
      rewrite Hname. exact Hne.
    + intros (job & Hjob & Hns & Hname & Hne).
      exists job. pose proof (Hkeyed _ _ Hjob) as Hjk.
      unfold jobKey, storeKey in Hjk. split.
      * destruct req as [ns name]. cbn [reqNamespace reqName] in Hjk.
        injection Hjk as -> ->. reflexivity.
      * apply matchingJobs_In. split; [eauto|]. split; [exact Hns|].
        split; [exact Hname|]. rewrite <- Hname. exact Hne.
  - intros Hfail. destruct (listErr (faults w)); [reflexivity|contradiction].
  - destruct (listErr (faults w)); split; reflexivity.
Qed.

Lemma matchingFields_In namespace value acts pa :
  In pa (matchingFields namespace value acts) <->
  In pa acts /\ paNamespace pa = namespace /\ ToValidName (paName pa) = value.
Proof.
  unfold matchingFields, pipelineActivityIndex. rewrite filter_In.
  cbn [existsb]. rewrite andb_true_iff, orb_false_r, !String.eqb_eq.
  split; intros (Hin & Hns & Hname); (split; [exact Hin|split; [exact Hns|]]);
    congruence.
Qed.

(** X22: the correlation is the same in both directions.  For a stored job
    with an ActivityName and an activity of the cluster, a change of the
    activity enqueues the job exactly when a reconciliation of the job finds
    the activity. *)
Theorem correlation_is_bidirectional w job pa requests :
  wellKeyed w ->
  listErr (faults w) = None ->
  jobs w !! jobKey job = Some job ->
  ActivityName (Status job) <> "" ->
  In pa (activities w) ->
  (toRequests pa w).1 = Val requests ->
  (In (requestFor job) requests <->
   In pa (matchingFields (Namespace job) (ActivityName (Status job)) (activities w))).
Proof.
  intros Hkeyed Hlist Hjob Hname Hpa Hrequests.
  rewrite toRequests_run, Hlist in Hrequests. cbn [fst] in Hrequests.
  injection Hrequests as <-.
  rewrite matchingFields_In, in_map_iff. split.
  - intros (j & Hreq & Hin). apply matchingJobs_In in Hin.
    destruct Hin as ((key & Hkey) & Hns & Hact & _).
    assert (j = job) as ->.
    { pose proof (Hkeyed _ _ Hkey) as Hjk. unfold jobKey in *.
      injection Hreq as Hn1 Hn2. rewrite Hn1, Hn2 in Hjk. rewrite <- Hjk in Hkey.
      congruence. }
    split; [exact Hpa|]. split; congruence.
  - intros (_ & Hns & Hact). exists job. split; [reflexivity|].
    apply matchingJobs_In. split; [eauto|]. split; [congruence|].
    split; [congruence|]. rewrite Hact. exact Hname.
Qed.

Lemma triggerOutcome_faults r w job : faults (triggerOutcome r w job).2 = faults w.
Proof.
  unfold triggerOutcome. destruct (createResult r w job) as [err|[key crds]]; [reflexivity|].
  destruct (statusUpdateErr (faults w)); [reflexivity|].
  destruct (Apply (mpClient r) key crds (activities w)).1; reflexivity.
Qed.

(** X23: a triggered job is found again from its activity.  Once a trigger
    has committed the Pending status with a non-empty ActivityName, a change
    of any activity of the job's namespace whose normalised name is that of
    the engine's key (the activity the engine materialises under that key,
    for one) enqueues a request for the job. *)
Theorem triggered_job_is_found_from_its_activity r w job key crds o :
  wellKeyed w ->
  reaches w job [] ->
  State (Status job) = TriggeredState ->
  createResult r w job = inr (key, crds) ->
  statusUpdateErr (faults w) = None ->
  ToValidName (keyName key) <> "" ->
  paNamespace o = Namespace job ->
  ToValidName (paName o) = ToValidName (keyName key) ->
  exists requests,
    (toRequests o (Reconcile r (requestFor job) w).2).1 = Val requests /\
    In (requestFor job) requests.
Proof.
  intros Hkeyed Hreach Hst Hcreate Hstatus Hname Hns Ho.
  rewrite (Reconcile_trigger r w job Hreach Hst).
  pose proof Hreach as (_ & _ & _ & Hlist & _).
  rewrite toRequests_run, triggerOutcome_faults. cbn [faults entered withTrace].
  rewrite Hlist. eexists. split; [reflexivity|].
  rewrite (triggerOutcome_committed r (entered w) job key crds Hcreate Hstatus).
  apply in_map_iff. exists (pendingJob job key (clock w)). split; [reflexivity|].
  apply matchingJobs_In. split; [|split; [|split]].
  - exists (jobKey job). apply lookup_insert_eq.
  - symmetry. exact Hns.
  - symmetry. exact Ho.
  - rewrite Ho. exact Hname.
Qed.

End Dispatching.

(** ** Construction *)

(** X24: the construction of a reconciler fails exactly when no engine
    client is supplied and the factory fails, with the factory's error
    wrapped; otherwise the reconciler works in the given namespace, with the
    supplied client when there is one. *)
Theorem reconciler_construction factory ns mp :
  (forall err,
     NewLighthouseJobReconciler factory ns mp = inl err <->
     mp = None /\
     exists cause, factory ns = inl cause /\
                   err = ErrWrap cause "failed to create metapipeline client") /\
  (forall r,
     NewLighthouseJobReconciler factory ns mp = inr r ->
     namespace r = ns /\
     (forall c, mp = Some c -> mpClient r = c) /\
     (mp = None -> factory ns = inr (mpClient r))).
Proof.
  unfold NewLighthouseJobReconciler. split.
  - intros err. destruct mp as [c|].
    + split; [discriminate|]. intros [Hnone _]. discriminate Hnone.
    + destruct (factory ns) as [cause|c].
      * split.
        -- intros [= <-]. split; [reflexivity|]. exists cause. split; reflexivity.
        -- intros (_ & cause' & [= <-] & ->). reflexivity.
      * split; [discriminate|]. intros (_ & cause & Hcause & _). discriminate Hcause.
  - intros r. destruct mp as [c|].
    + intros [= <-]. split; [reflexivity|]. split; [|discriminate].
      intros c' [= <-]. reflexivity.
    + destruct (factory ns) as [cause|c]; [discriminate|].
      intros [= <-]. split; [reflexivity|]. split; [discriminate|reflexivity].
Qed.


Section Literal.
Context `{X : Externals}.

Lemma append_snoc buf c s : Template.snoc buf c ++ s = buf ++ String c s.
Proof.
  unfold Template.snoc. induction buf as [|d buf IH]; [reflexivity|].
  change (String d buf ++ String c "") with (String d (buf ++ String c "")).
  change (String d (buf ++ String c "") ++ s) with (String d ((buf ++ String c "") ++ s)).
  rewrite IH. reflexivity.
Qed.

Lemma scan_literal buf s :
  forallb (fun c => negb (Ascii.eqb c "{")) (list_ascii_of_string s) = true ->
  Template.scan Template.InText buf s =
  Template.Tokens (Template.flushText (buf ++ s) []).
Proof.
  revert buf. induction s as [|c s IH]; intros buf Hplain.
  - cbn [Template.scan]. rewrite append_empty_r. reflexivity.
  - cbn [list_ascii_of_string forallb] in Hplain.
    apply andb_true_iff in Hplain as [Hc Hrest].
    assert (Hstep : Template.scan Template.InText buf (String c s) =
                    Template.scan Template.InText (Template.snoc buf c) s).
    { destruct (Ascii.eqb_spec c "{") as [->|Hne]; [discriminate Hc|].
      cbn [Template.scan].
      destruct c as [[] [] [] [] [] [] [] []]; try reflexivity.
      contradiction Hne. reflexivity. }
    rewrite Hstep, (IH _ Hrest), append_snoc. reflexivity.
Qed.

(** X20: a template without a brace is literal text: createReportTargetURL
    returns it as it is and logs nothing.  The empty template in
    particular yields the empty string without a warning. *)
Theorem literal_template_renders_verbatim templateText params w :
  forallb (fun c => negb (Ascii.eqb c "{")) (list_ascii_of_string templateText) = true ->
  createReportTargetURL templateText params w = (Val templateText, w).
Proof.
  intros Hplain. rewrite createReportTargetURL_run.
  unfold renderedURL, renderTargetURL, renderWarning, toObjectMap, Template.Parse.
  rewrite (scan_literal "" templateText Hplain).
  change ("" ++ templateText) with templateText.
  destruct templateText as [|c s];
    cbn [Template.flushText Template.build rev app Template.Execute Template.walk
         Template.walkNode flat_map Template.run];
    [destruct w; reflexivity|].
  rewrite append_empty_r. destruct w. reflexivity.
Qed.

End Literal.

(** ** The further properties on the sample cluster *)

Module MoreExamples.
Import Sample Cluster.
#[local] Existing Instance Sample.externals.

Lemma wellKeyed_worldOf job acts env fs : wellKeyed (worldOf job acts env fs).
Proof.
  intros key j Hj. cbn [jobs worldOf] in Hj.
  apply lookup_singleton_Some in Hj as [<- <-]. reflexivity.
Qed.

Lemma missing_job_is_dropped_witness :
  (getErr (faults emptyWorld) = None /\
   jobs emptyWorld !! storeKey (requestFor freshJob) = None) /\
  (Reconcile (reconciler engine) (requestFor freshJob) emptyWorld).1 = Returned None.
Proof.
  assert (Hmissing : getErr (faults emptyWorld) = None /\
                     jobs emptyWorld !! storeKey (requestFor freshJob) = None)
    by (split; reflexivity).
  split; [exact Hmissing|].
  rewrite (missing_job_is_dropped (reconciler engine) (requestFor freshJob) emptyWorld
             (or_intror Hmissing)).
  reflexivity.
Defined.

Lemma read_errors_are_returned_witness :
  getErr (faults unreachableWorld) = Some (ErrMsg "connection refused") /\
  (Reconcile (reconciler engine) (requestFor freshJob) unreachableWorld).1 =
    Returned (Some (ErrMsg "connection refused")) /\
  (Reconcile (reconciler engine) (requestFor freshJob) listFailsWorld).1 =
    Returned (Some (ErrMsg "cache not started")).
Proof.
  assert (Hget : getErr (faults listFailsWorld) = None) by reflexivity.
  assert (Hjob : jobs listFailsWorld !! storeKey (requestFor freshJob) = Some freshJob)
    by reflexivity.
  assert (Hagent : otherAgent freshJob = false) by reflexivity.
  assert (Hlist : listErr (faults listFailsWorld) = Some (ErrMsg "cache not started"))
    by reflexivity.
  split; [reflexivity|]. split.
  - rewrite (proj1 (read_errors_are_returned (reconciler engine) (requestFor freshJob)
                      unreachableWorld) (ErrMsg "connection refused") eq_refl);
      [reflexivity|discriminate].
  - rewrite (proj2 (read_errors_are_returned (reconciler engine) (requestFor freshJob)
                      listFailsWorld) freshJob (ErrMsg "cache not started")
               Hget Hjob Hagent Hlist).
    reflexivity.
Defined.

Lemma other_agents_are_ignored_witness :
  getErr (faults foreignWorld) = None /\
  jobs foreignWorld !! storeKey (requestFor foreignJob) = Some foreignJob /\
  otherAgent foreignJob = true /\
  listErr (faults foreignWorld) = Some (ErrMsg "cache not started") /\
  Reconcile (reconciler engine) (requestFor foreignJob) foreignWorld =
    (Returned None, entered foreignWorld).
Proof.
  split; [reflexivity|]. split; [reflexivity|]. split; [reflexivity|].
  split; [reflexivity|].
  apply (other_agents_are_ignored (reconciler engine) (requestFor foreignJob)
           foreignWorld foreignJob); reflexivity.
Defined.

Lemma waiting_job_is_left_alone_witness :
  reaches waitingWorld startedJob [] /\
  State (Status startedJob) <> TriggeredState /\
  Reconcile (reconciler engine) (requestFor startedJob) waitingWorld =
    (Returned None, entered waitingWorld).
Proof.
  assert (Hreach : reaches waitingWorld startedJob []) by (repeat split; reflexivity).
  assert (Hst : State (Status startedJob) <> TriggeredState) by discriminate.
  split; [exact Hreach|]. split; [exact Hst|].
  exact (waiting_job_is_left_alone (reconciler engine) waitingWorld startedJob Hreach Hst).
Defined.

Lemma trigger_failures_witness :
  reaches freshWorld freshJob [] /\
  State (Status freshJob) = TriggeredState /\
  createResult (reconciler brokenCreate) freshWorld freshJob =
    inl (ErrMsg "no build pack") /\
  (Reconcile (reconciler brokenCreate) (requestFor freshJob) freshWorld).1 =
    Returned (Some (ErrWrap (ErrMsg "no build pack") "unable to create Tekton CRDs")).
Proof.
  assert (Hreach : reaches freshWorld freshJob []) by (repeat split; reflexivity).
  assert (Hst : State (Status freshJob) = TriggeredState) by reflexivity.
  split; [exact Hreach|]. split; [exact Hst|]. split; [reflexivity|].
  rewrite (proj1 (trigger_failures (reconciler brokenCreate) freshWorld freshJob
                    Hreach Hst) (ErrMsg "no build pack") eq_refl).
  reflexivity.
Defined.

Lemma label_write_failure_witness :
  reaches updateFailsWorld startedJob [activity3] /\
  Labels startedJob = Some ∅ /\
  updateErr (faults updateFailsWorld) = Some ErrConflict /\
  (Reconcile (reconciler engine) (requestFor startedJob) updateFailsWorld).1 =
    Returned (Some ErrConflict) /\
  jobs (Reconcile (reconciler engine) (requestFor startedJob) updateFailsWorld).2 =
    jobs updateFailsWorld.
Proof.
  assert (Hreach : reaches updateFailsWorld startedJob [activity3])
    by (repeat split; reflexivity).
  assert (Hlabels : Labels startedJob = Some ∅) by reflexivity.
  assert (Hupdate : updateErr (faults updateFailsWorld) = Some ErrConflict) by reflexivity.
  split; [exact Hreach|]. split; [exact Hlabels|]. split; [exact Hupdate|].
  rewrite (label_write_failure (reconciler engine) updateFailsWorld startedJob activity3
             ∅ ErrConflict Hreach Hlabels Hupdate).
  split; reflexivity.
Defined.

Lemma label_kept_when_status_write_fails_witness :
  reaches statusFailsWorld startedJob [activity3] /\
  Labels startedJob = Some ∅ /\
  updateErr (faults statusFailsWorld) = None /\
  statusUpdateErr (faults statusFailsWorld) = Some ErrConflict /\
  (Reconcile (reconciler engine) (requestFor startedJob) statusFailsWorld).1 =
    Returned (Some ErrConflict) /\
  stored (Reconcile (reconciler engine) (requestFor startedJob) statusFailsWorld).2
    startedJob = Some (labelledJob startedJob ∅ activity3).
Proof.
  assert (Hreach : reaches statusFailsWorld startedJob [activity3])
    by (repeat split; reflexivity).
  destruct (label_kept_when_status_write_fails (reconciler engine) statusFailsWorld
              startedJob activity3 ∅ ErrConflict Hreach eq_refl eq_refl eq_refl)
    as (Hexit & Hstored & _).
  split; [exact Hreach|]. split; [reflexivity|]. split; [reflexivity|].
  split; [reflexivity|]. split; [exact Hexit|exact Hstored].
Defined.

Lemma mirroring_twice_changes_nothing_witness :
  reaches mirrorWorld startedJob [activity3] /\
  (Reconcile (reconciler engine) (requestFor startedJob) mirrorWorld).1 = Returned None /\
  jobs (Reconcile (reconciler engine) (requestFor startedJob)
          (Reconcile (reconciler engine) (requestFor startedJob) mirrorWorld).2).2 =
  jobs (Reconcile (reconciler engine) (requestFor startedJob) mirrorWorld).2.
Proof.
  assert (Hreach : reaches mirrorWorld startedJob [activity3])
    by (repeat split; reflexivity).
  assert (Hnil : (Reconcile (reconciler engine) (requestFor startedJob) mirrorWorld).1 =
                 Returned None) by (vm_compute; reflexivity).
  split; [exact Hreach|]. split; [exact Hnil|].
  exact (proj2 (mirroring_twice_changes_nothing (reconciler engine) mirrorWorld
                  startedJob activity3 Hreach Hnil)).
Defined.

Lemma mirroring_keeps_the_lifecycle_witness :
  reaches mirrorWorld startedJob [activity3] /\
  exists job',
    stored (Reconcile (reconciler engine) (requestFor startedJob) mirrorWorld).2
      startedJob = Some job' /\
    State (Status job') = PendingState /\
    ActivityName (Status job') = "acme-widgets-main-1".
Proof.
  assert (Hreach : reaches mirrorWorld startedJob [activity3])
    by (repeat split; reflexivity).
  split; [exact Hreach|].
  destruct (stored (Reconcile (reconciler engine) (requestFor startedJob) mirrorWorld).2
              startedJob) as [job'|] eqn:Hstored; [|vm_compute in Hstored; discriminate].
  exists job'. split; [reflexivity|].
  destruct (mirroring_keeps_the_lifecycle (reconciler engine) mirrorWorld startedJob
              activity3 Hreach job' Hstored) as (Hstate & Hname & _).
  split; [exact Hstate|exact Hname].
Defined.

Lemma only_the_requested_job_is_written_witness :
  wellKeyed mirrorWorld /\
  wellKeyed (Reconcile (reconciler engine) (requestFor startedJob) mirrorWorld).2.
Proof.
  assert (Hkeyed : wellKeyed mirrorWorld) by apply wellKeyed_worldOf.
  split; [exact Hkeyed|].
  exact (proj1 (only_the_requested_job_is_written (reconciler engine)
                  (requestFor startedJob) mirrorWorld Hkeyed)).
Defined.

Lemma engine_called_only_at_trigger_point_witness :
  jobs mirrorWorld !! storeKey (requestFor startedJob) = Some startedJob /\
  State (Status startedJob) <> TriggeredState /\
  createCalls (trace (Reconcile (reconciler engine) (requestFor startedJob)
                        mirrorWorld).2) = [] /\
  activities (Reconcile (reconciler engine) (requestFor startedJob) mirrorWorld).2 =
    [activity3].
Proof.
  assert (Hjob : jobs mirrorWorld !! storeKey (requestFor startedJob) = Some startedJob)
    by reflexivity.
  split; [exact Hjob|]. split; [discriminate|].
  destruct (engine_called_only_at_trigger_point (reconciler engine)
              (requestFor startedJob) mirrorWorld) as (Hc & _ & Hacts).
  - intros job Hjob' Hst. rewrite Hjob in Hjob'. injection Hjob' as <-.
    discriminate Hst.
  - split; [exact Hc|exact Hacts].
Defined.

Lemma trigger_defaults_are_never_empty_witness :
  environ (worldOf freshJob [] serviceAccountEnv noFaults) !! "JX_SERVICE_ACCOUNT" =
    Some "builder" /\
  pcServiceAccount
    (createParam (worldOf freshJob [] serviceAccountEnv noFaults) (Spec freshJob)) =
    "builder" /\
  pcServiceAccount (createParam freshWorld (Spec freshJob)) = "tekton-bot".
Proof.
  split; [reflexivity|]. split.
  - apply (proj1 (proj2 (trigger_defaults_are_never_empty
                           (worldOf freshJob [] serviceAccountEnv noFaults)
                           (Spec freshJob)))); [reflexivity|discriminate].
  - apply (proj1 (proj2 (proj2 (trigger_defaults_are_never_empty freshWorld
                                  (Spec freshJob))))).
    left. reflexivity.
Defined.

Lemma pull_request_ids_are_faithful_witness :
  map ID (pullRequests (getPullRefs "a" (specOf [pr5]))) =
  map ID (pullRequests (getPullRefs "b" (specOf [{| Number := 5; SHA := "def" |}]))) /\
  map Number (Pulls (SpecRefs (specOf [pr5]))) =
  map Number (Pulls (SpecRefs (specOf [{| Number := 5; SHA := "def" |}]))).
Proof.
  assert (Hids : map ID (pullRequests (getPullRefs "a" (specOf [pr5]))) =
                 map ID (pullRequests
                           (getPullRefs "b" (specOf [{| Number := 5; SHA := "def" |}]))))
    by reflexivity.
  split; [exact Hids|].
  exact (pull_request_ids_are_faithful "a" (specOf [pr5]) "b"
           (specOf [{| Number := 5; SHA := "def" |}]) Hids).
Defined.

Lemma stored_report_url_witness :
  reaches mirrorWorld startedJob [activity3] /\
  (Reconcile (reconciler engine) (requestFor startedJob) mirrorWorld).1 = Returned None /\
  option_map (fun j => ReportURL (Status j))
    (stored (Reconcile (reconciler engine) (requestFor startedJob) mirrorWorld).2
       startedJob) =
  Some "https://example.com/teams/some-team/projects/acme/widgets/main/3".
Proof.
  assert (Hreach : reaches mirrorWorld startedJob [activity3])
    by (repeat split; reflexivity).
  assert (Hnil : (Reconcile (reconciler engine) (requestFor startedJob) mirrorWorld).1 =
                 Returned None) by (vm_compute; reflexivity).
  split; [exact Hreach|]. split; [exact Hnil|].
  apply (stored_report_url (reconciler engine) mirrorWorld startedJob activity3
           Hreach Hnil); [vm_compute; discriminate|vm_compute; reflexivity].
Defined.

Lemma template_renders_iff_fields_known_witness :
  Template.Parse "{{ .Owner }}{{if true}}/{{ .Context }}{{end}}{{if false}}{{ .Pipeline }}{{end}}" =
    inr (Template.Tree
           [Template.FieldNode "Owner";
            Template.IfNode true [Template.TextNode "/"; Template.FieldNode "Context"];
            Template.IfNode false [Template.FieldNode "Pipeline"]]) /\
  exists url,
    renderTargetURL
      "{{ .Owner }}{{if true}}/{{ .Context }}{{end}}{{if false}}{{ .Pipeline }}{{end}}"
      someParams = inr url.
Proof.
  assert (Hparse :
    Template.Parse
      "{{ .Owner }}{{if true}}/{{ .Context }}{{end}}{{if false}}{{ .Pipeline }}{{end}}" =
    inr (Template.Tree
           [Template.FieldNode "Owner";
            Template.IfNode true [Template.TextNode "/"; Template.FieldNode "Context"];
            Template.IfNode false [Template.FieldNode "Pipeline"]])) by reflexivity.
  split; [exact Hparse|].
  apply (proj1 (template_renders_iff_fields_known _ _ someParams Hparse)).
  intros name [[= <-]|[[=]|[[= <-]|[]]]]; cbn; auto 10.
Defined.

Lemma activity_change_enqueues_its_jobs_witness :
  listErr (faults mirrorWorld) = None /\
  wellKeyed mirrorWorld /\
  exists requests,
    (toRequests activity3 mirrorWorld).1 = Val requests /\
    In (requestFor startedJob) requests.
Proof.
  assert (Hkeyed : wellKeyed mirrorWorld) by apply wellKeyed_worldOf.
  split; [reflexivity|]. split; [exact Hkeyed|].
  destruct (proj1 (activity_change_enqueues_its_jobs activity3 mirrorWorld) eq_refl Hkeyed)
    as (requests & Hrun & Hin).
  exists requests. split; [exact Hrun|].
  apply Hin. exists startedJob. repeat split; try reflexivity. discriminate.
Defined.

Lemma correlation_is_bidirectional_witness :
  wellKeyed mirrorWorld /\
  listErr (faults mirrorWorld) = None /\
  jobs mirrorWorld !! jobKey startedJob = Some startedJob /\
  ActivityName (Status startedJob) <> "" /\
  In activity3 (activities mirrorWorld) /\
  (toRequests activity3 mirrorWorld).1 = Val [requestFor startedJob] /\
  In (requestFor startedJob) [requestFor startedJob].
Proof.
  assert (Hkeyed : wellKeyed mirrorWorld) by apply wellKeyed_worldOf.
  assert (Hname : ActivityName (Status startedJob) <> "") by discriminate.
  assert (Hin : In activity3 (activities mirrorWorld)) by (left; reflexivity).
  assert (Hrun : (toRequests activity3 mirrorWorld).1 = Val [requestFor startedJob])
    by (vm_compute; reflexivity).
  assert (Hlist : listErr (faults mirrorWorld) = None) by reflexivity.
  assert (Hjob : jobs mirrorWorld !! jobKey startedJob = Some startedJob) by reflexivity.
  split; [exact Hkeyed|]. split; [exact Hlist|]. split; [exact Hjob|].
  split; [exact Hname|]. split; [exact Hin|]. split; [exact Hrun|].
  apply (correlation_is_bidirectional mirrorWorld startedJob activity3
           [requestFor startedJob] Hkeyed Hlist Hjob Hname Hin Hrun).
  vm_compute. left. reflexivity.
Defined.

Lemma triggered_job_is_found_from_its_activity_witness :
  wellKeyed freshWorld /\
  reaches freshWorld freshJob [] /\
  State (Status freshJob) = TriggeredState /\
  createResult (reconciler engine) freshWorld freshJob = inr (key1, crds) /\
  statusUpdateErr (faults freshWorld) = None /\
  ToValidName (keyName key1) <> "" /\
  exists requests,
    (toRequests activity4
       (Reconcile (reconciler engine) (requestFor freshJob) freshWorld).2).1 =
      Val requests /\
    In (requestFor freshJob) requests.
Proof.
  assert (Hkeyed : wellKeyed freshWorld) by apply wellKeyed_worldOf.
  assert (Hreach : reaches freshWorld freshJob []) by (repeat split; reflexivity).
  assert (Hname : ToValidName (keyName key1) <> "") by (vm_compute; discriminate).
  assert (Hst : State (Status freshJob) = TriggeredState) by reflexivity.
  assert (Hcreate : createResult (reconciler engine) freshWorld freshJob =
                    inr (key1, crds)) by reflexivity.
  assert (Hstatus : statusUpdateErr (faults freshWorld) = None) by reflexivity.
  assert (Hns : paNamespace activity4 = Namespace freshJob) by reflexivity.
  assert (Ho : ToValidName (paName activity4) = ToValidName (keyName key1))
    by reflexivity.
  split; [exact Hkeyed|]. split; [exact Hreach|]. split; [exact Hst|].
  split; [exact Hcreate|]. split; [exact Hstatus|]. split; [exact Hname|].
  exact (triggered_job_is_found_from_its_activity (reconciler engine) freshWorld
           freshJob key1 crds activity4 Hkeyed Hreach Hst Hcreate Hstatus Hname Hns Ho).
Defined.

Lemma literal_template_renders_verbatim_witness :
  forallb (fun c => negb (Ascii.eqb c "{")) (list_ascii_of_string "https://ci.example") =
    true /\
  createReportTargetURL "https://ci.example" someParams emptyWorld =
    (Val "https://ci.example", emptyWorld).
Proof.
  assert (Hplain : forallb (fun c => negb (Ascii.eqb c "{"))
                     (list_ascii_of_string "https://ci.example") = true) by reflexivity.
  split; [exact Hplain|].
  exact (literal_template_renders_verbatim "https://ci.example" someParams emptyWorld
           Hplain).
Defined.

End MoreExamples.
